(** * The portfolio service worker (sw.js): cache lifecycle and fetch routing

    A shallow embedding of the event handlers of [sw.js].  The browser
    objects the worker talks to (CacheStorage, Cache, fetch, console,
    registration) are modelled as primitives of a small state-and-trace
    monad; the handlers themselves are transcribed from the source, line
    by line, on top of these primitives. *)

From Stdlib Require Import ZArith String Ascii List.
From stdpp Require Import gmap strings list fin_maps.
Import ListNotations.

Set Warnings "-register-all".

Local Open Scope string_scope.
Local Open Scope Z_scope.

(** ** Values exchanged with the platform *)

(** The settled state of a promise. *)
Inductive Settled (A : Type) : Type :=
| Fulfilled (a : A)
| Rejected (reason : string).
Arguments Fulfilled {A} a.
Arguments Rejected {A} reason.

(** How a synchronous listener body ends. *)
Inductive Completion : Type :=
| Normal
| Throws (e : string).

(** [Response.type] of the Fetch standard. *)
Module ResponseType.
Inductive t : Type :=
| basic | cors | default | error | opaque | opaqueredirect.

Definition eqb (a b : t) : bool :=
  match a, b with
  | basic, basic | cors, cors | default, default
  | error, error | opaque, opaque | opaqueredirect, opaqueredirect => true
  | _, _ => false
  end.
End ResponseType.

Module Response.
Record t : Type := mk { status : Z; type : ResponseType.t; body : string }.
End Response.

Module Request.
(** [accept] is [request.headers.get('accept')]: [None] stands for [null]. *)
Record t : Type :=
  mk { method : string; url : string; destination : string; accept : option string }.
End Request.

(** ** URL accessors used by the worker: [new URL(s).protocol] and [.origin]

    [request.url] is always a serialised absolute URL, so the scheme is
    the text up to the first colon and, for the hierarchical schemes the
    worker lets through, the authority is what follows the two slashes. *)

Fixpoint scheme_of (s : string) : string :=
  match s with
  | EmptyString => EmptyString
  | String c r =>
      if Ascii.eqb c ":" then String c EmptyString else String c (scheme_of r)
  end.

Fixpoint after_scheme (s : string) : string :=
  match s with
  | EmptyString => EmptyString
  | String c r => if Ascii.eqb c ":" then r else after_scheme r
  end.

Fixpoint until_delim (s : string) : string :=
  match s with
  | EmptyString => EmptyString
  | String c r =>
      if Ascii.eqb c "/" || Ascii.eqb c "?" || Ascii.eqb c "#"
      then EmptyString else String c (until_delim r)
  end.

Definition host_of (s : string) : string :=
  match after_scheme s with
  | String "/" (String "/" r) => until_delim r
  | _ => EmptyString
  end.

Definition URL_protocol (s : string) : string := scheme_of s.

Definition URL_origin (s : string) : string :=
  String.append (scheme_of s) (String.append "//" (host_of s)).

(** [String.prototype.includes]. *)
Fixpoint includes (s sub : string) : bool :=
  String.prefix sub s ||
  match s with
  | EmptyString => false
  | String _ r => includes r sub
  end.

(** The URL as the Cache API compares it: with the fragment excluded. *)
Fixpoint cache_key (url : string) : string :=
  match url with
  | EmptyString => EmptyString
  | String c r =>
      if Ascii.eqb c "#" then EmptyString else String c (cache_key r)
  end.

(** ** Cache storage

    A [Cache] maps request URLs (GET only) to stored responses, keyed by
    the text of the URL.  The Cache API compares URLs with the fragment
    excluded ([cache_key]), so what is said below about single entries is
    said up to the fragment.
    [CacheStorage] keeps its named caches in creation order, which is the
    order [caches.match] searches them in. *)

Abbreviation Cache := (gmap string Response.t).
Definition CacheStorage : Type := list (string * Cache).

Definition s_names (s : CacheStorage) : list string := map fst s.

Fixpoint s_lookup (name : string) (s : CacheStorage) : option Cache :=
  match s with
  | [] => None
  | (n, c) :: rest => if String.eqb n name then Some c else s_lookup name rest
  end.

Definition s_has (name : string) (s : CacheStorage) : bool :=
  match s_lookup name s with Some _ => true | None => false end.

(** [caches.open]: the cache is created, empty, when it does not exist. *)
Definition s_open (name : string) (s : CacheStorage) : CacheStorage :=
  if s_has name s then s else (s ++ [(name, ∅)])%list.

(** [caches.delete]. *)
Definition s_delete (name : string) (s : CacheStorage) : CacheStorage :=
  List.filter (fun p => negb (String.eqb (fst p) name)) s.

Definition s_update (name : string) (f : Cache -> Cache) (s : CacheStorage)
  : CacheStorage :=
  map (fun p => if String.eqb (fst p) name then (fst p, f (snd p)) else p) s.

(** [cache.put] on the cache called [name]. *)
Definition s_put (name url : string) (r : Response.t) (s : CacheStorage)
  : CacheStorage :=
  s_update name (fun c => <[url := r]> c) s.

(** [caches.match]: the first cache, in creation order, holding the URL. *)
Fixpoint s_match (url : string) (s : CacheStorage) : option Response.t :=
  match s with
  | [] => None
  | (_, c) :: rest =>
      match c !! url with
      | Some r => Some r
      | None => s_match url rest
      end
  end.

(** The entry stored for [url] in the cache called [name], if any. *)
Definition entry (s : CacheStorage) (name url : string) : option Response.t :=
  match s_lookup name s with
  | Some c => c !! url
  | None => None
  end.

(** ** Observable effects *)

Record NotificationOptions : Type :=
  { body : string; icon : string; badge : string;
    vibrate : list Z; data_dateOfArrival : Z }.

Inductive Effect : Type :=
| CachesOpen (name : string)
| CachesKeys
| CachesDelete (name : string)
| CachesMatch (url : string)
| CachePut (name url : string) (r : Response.t)
| CacheAddAll (name : string) (urls : list string)
| NetFetch (url : string)
| ConsoleLog (msg : string)
| SkipWaiting
| ClientsClaim
| ShowNotification (title : string) (options : NotificationOptions).

Definition is_cache_effect (e : Effect) : bool :=
  match e with
  | CachesOpen _ | CachesKeys | CachesDelete _ | CachesMatch _
  | CachePut _ _ _ | CacheAddAll _ _ => true
  | _ => false
  end.

Definition is_network_call (e : Effect) : bool :=
  match e with NetFetch _ => true | _ => false end.

Definition network_calls (tr : list Effect) : nat :=
  length (List.filter is_network_call tr).

(** The names passed to [caches.delete], in the order of the calls. *)
Definition deleted_names (tr : list Effect) : list string :=
  flat_map (fun e => match e with CachesDelete n => [n] | _ => [] end) tr.

(** ** The monad: cache storage threaded through, effects logged in order *)

Definition M (A : Type) : Type := CacheStorage -> A * CacheStorage * list Effect.

Definition ret {A} (a : A) : M A := fun s => (a, s, []).

Definition bind {A B} (m : M A) (k : A -> M B) : M B :=
  fun s =>
    let '(a, s1, t1) := m s in
    let '(b, s2, t2) := k a s1 in
    (b, s2, (t1 ++ t2)%list).

Notation "x <~ m ;; k" := (bind m (fun x => k))
  (at level 100, m at next level, right associativity).
Notation "m ;;; k" := (bind m (fun _ => k))
  (at level 100, right associativity).

Fixpoint mapM {A B} (f : A -> M B) (l : list A) : M (list B) :=
  match l with
  | [] => ret []
  | a :: rest => b <~ f a ;; bs <~ mapM f rest ;; ret (b :: bs)
  end.

Definition result_of {A} (x : A * CacheStorage * list Effect) : A := fst (fst x).
Definition storage_of {A} (x : A * CacheStorage * list Effect) : CacheStorage :=
  snd (fst x).
Definition trace_of {A} (x : A * CacheStorage * list Effect) : list Effect := snd x.

(** ** JavaScript values carried by a message event *)

Module JS.
Inductive Val : Type :=
| Undefined
| Null
| Bool (b : bool)
| Num (n : Z)
| NaN
| Str (s : string)
| Obj (props : list (string * Val)).

(** ToBoolean. *)
Definition truthy (v : Val) : bool :=
  match v with
  | Undefined | Null | NaN => false
  | Bool b => b
  | Num n => negb (n =? 0)
  | Str s => negb (String.eqb s "")
  | Obj _ => true
  end.

Fixpoint assoc (k : string) (props : list (string * Val)) : Val :=
  match props with
  | [] => Undefined
  | (k', v) :: rest => if String.eqb k' k then v else assoc k rest
  end.

(** Member access [v.k].  On [undefined] and [null] it throws; on a
    primitive the worker only ever asks for a key that the wrapper
    prototypes do not define, which yields [undefined]. *)
Definition get (v : Val) (k : string) : string + Val :=
  match v with
  | Undefined | Null => inl "TypeError"
  | Obj props => inr (assoc k props)
  | _ => inr Undefined
  end.

(** [v === s] for a string literal [s]. *)
Definition strict_eq_string (v : Val) (s : string) : bool :=
  match v with
  | Str t => String.eqb t s
  | _ => false
  end.
End JS.

(** What a fetch listener does with the event. *)
Inductive FetchOutcome : Type :=
| PassThrough
| RespondWith (p : Settled (option Response.t)).



(** ** The page module (performance.js) *)

Module Perf.

(** [window.performance.timing]: epoch milliseconds, integers. *)
Record Timing : Type :=
  { navigationStart : Z; domContentLoadedEventEnd : Z; loadEventEnd : Z }.

Section Numbers.

(** High-resolution time stamps and layout-shift scores are doubles;
    the script copies them and adds them up, so they stay abstract,
    with [add] for [+=]. *)
Variable Num : Type.
Variable add : Num -> Num -> Num.

(** A performance entry, as far as the script reads it. *)
Record Entry : Type :=
  { name : string; startTime : Num; value : Num; hadRecentInput : bool }.

Record Metrics : Type :=
  { domContentLoaded : Z; loadComplete : Z;
    firstPaint : option Num; firstContentfulPaint : option Num }.

(** [getEntriesByType] is [None] where the browser lacks the method. *)
Record Performance : Type :=
  { timing : option Timing;
    getEntriesByType : option (string -> list Entry) }.

Record Window : Type :=
  { performance : option Performance; gtag : bool }.

Inductive Effect : Type :=
| Log (label : string) (metrics : Metrics)
| LogNum (label : string) (n : Num)
| Gtag (command event : string) (metrics : Metrics).

(** Lines 20-26: the callback of [paintEntries.forEach]. *)
Definition record_paint (metrics : Metrics) (entry : Entry) : Metrics :=
  if String.eqb (name entry) "first-paint" then
    {| domContentLoaded := domContentLoaded metrics;
       loadComplete := loadComplete metrics;
       firstPaint := Some (startTime entry);
       firstContentfulPaint := firstContentfulPaint metrics |}
  else if String.eqb (name entry) "first-contentful-paint" then
    {| domContentLoaded := domContentLoaded metrics;
       loadComplete := loadComplete metrics;
       firstPaint := firstPaint metrics;
       firstContentfulPaint := Some (startTime entry) |}
  else metrics.

(** Lines 6-36. *)
Definition collectPerformanceMetrics (window : Window) : list Effect :=
  match performance window with
  | None => []
  | Some perf =>
      match timing perf with
      | None => []
      | Some timing =>
          let metrics :=
            {| domContentLoaded :=
                 domContentLoadedEventEnd timing - navigationStart timing;
               loadComplete := loadEventEnd timing - navigationStart timing;
               firstPaint := None;
               firstContentfulPaint := None |} in
          let metrics :=
            match getEntriesByType perf with
            | Some get => fold_left record_paint (get "paint") metrics
            | None => metrics
            end in
          (Log "Performance Metrics:" metrics ::
           (if gtag window then [Gtag "event" "page_performance" metrics] else []))%list
      end
  end.

(** Lines 107-111: the callback of the largest-contentful-paint
    observer.  [entries[entries.length - 1]] is [undefined] on an empty
    list, and reading [startTime] off it throws. *)
Definition lcp_callback (entries : list Entry) : Completion * list Effect :=
  let index := Z.of_nat (length entries) - 1 in
  let lastEntry := if index <? 0 then None else entries !! Z.to_nat index in
  match lastEntry with
  | Some entry => (Normal, [LogNum "LCP:" (startTime entry)])
  | None => (Throws "TypeError", [])
  end.

(** Lines 124-132: the callback of the layout-shift observer, over the
    [clsValue] of the enclosing scope. *)
Definition cls_callback (entries : list Entry) (clsValue : Num)
  : Num * list Effect :=
  let clsValue :=
    fold_left (fun acc entry =>
                 if negb (hadRecentInput entry) then add acc (value entry) else acc)
              entries clsValue in
  (clsValue, [LogNum "CLS:" clsValue]).

End Numbers.

Arguments name {Num} _.
Arguments startTime {Num} _.
Arguments value {Num} _.
Arguments hadRecentInput {Num} _.
Arguments domContentLoaded {Num} _.
Arguments loadComplete {Num} _.
Arguments firstPaint {Num} _.
Arguments firstContentfulPaint {Num} _.
Arguments timing {Num} _.
Arguments getEntriesByType {Num} _.
Arguments performance {Num} _.
Arguments gtag {Num} _.
Arguments Log {Num} label metrics.
Arguments LogNum {Num} label n.
Arguments Gtag {Num} command event metrics.
Arguments record_paint {Num} metrics entry.
Arguments collectPerformanceMetrics {Num} window.
Arguments lcp_callback {Num} entries.
Arguments cls_callback {Num} add entries clsValue.

(** The start time of the last entry called [kind], if there is one. *)
Definition last_start {Num : Type} (kind : string) (entries : list (Entry Num))
  : option Num :=
  last (map startTime (List.filter (fun e => String.eqb (name e) kind) entries)).

(** An entry that reports a shift not caused by recent input. *)
Definition counts {Num : Type} (entry : Entry Num) : bool :=
  negb (hadRecentInput entry).

(** *** Lines 39-62: lazy images.  The document's [img] elements in
    document order; an element is referred to by its position. *)

Record Img : Type :=
  { src : string; data_src : option string; classList : list string }.

(** [classList.add]: a token list holds a token once. *)
Definition classList_add (token : string) (l : list string) : list string :=
  if existsb (String.eqb token) l then l else (l ++ [token])%list.

(** [img.src = img.dataset.src; img.classList.add('loaded')]; an absent
    [data-src] reads as [undefined], which the assignment turns into text. *)
Definition load (img : Img) : Img :=
  {| src := match data_src img with Some u => u | None => "undefined" end;
     data_src := data_src img;
     classList := classList_add "loaded" (classList img) |}.

Definition has_data_src (img : Img) : bool :=
  match data_src img with Some _ => true | None => false end.

(** [document.querySelectorAll('img[data-src]')], from position [i] on. *)
Fixpoint select_from (i : nat) (document : list Img) : list nat :=
  match document with
  | [] => []
  | img :: rest =>
      if has_data_src img then i :: select_from (S i) rest
      else select_from (S i) rest
  end.

Definition querySelectorAll_img_data_src (document : list Img) : list nat :=
  select_from 0 document.

(** [observer.observe] and [observer.unobserve] on an observer's targets. *)
Definition observe (img : nat) (targets : list nat) : list nat :=
  if existsb (Nat.eqb img) targets then targets else (targets ++ [img])%list.

Definition unobserve (img : nat) (targets : list nat) : list nat :=
  List.filter (fun t => negb (Nat.eqb t img)) targets.

(** The document and the targets of the observer the call created (none
    in the fallback branch). *)
Definition optimizeImageLoading (hasIntersectionObserver : bool)
  (document : list Img) : list Img * list nat :=
  let images := querySelectorAll_img_data_src document in
  if hasIntersectionObserver
  then (document, fold_left (fun targets img => observe img targets) images [])
  else (fold_left (fun doc img => alter load img doc) images document, []).

Record IntersectionEntry : Type := { isIntersecting : bool; target : nat }.

(** Lines 43-52: the observer's callback. *)
Definition on_intersection (entries : list IntersectionEntry)
  (state : list Img * list nat) : list Img * list nat :=
  fold_left (fun st entry =>
               if isIntersecting entry
               then (alter load (target entry) (fst st),
                     unobserve (target entry) (snd st))
               else st)
            entries state.

(** *** Lines 146-166: the page after [register('sw.js')] resolved *)

Record Registration : Type := { scope : string; waiting : bool }.

Inductive ClientEffect : Type :=
| ClientLog (msg : string)
| AddEventListener (target event : string)
| RegistrationUpdate
| PostMessage (data : JS.Val).

Definition on_registered (registration : Registration) : list ClientEffect :=
  ([ ClientLog (String.append "ServiceWorker registration successful: "
                  (scope registration));
     AddEventListener "registration" "updatefound";
     RegistrationUpdate ]
   ++ (if waiting registration
       then [PostMessage (JS.Obj [("type", JS.Str "SKIP_WAITING")])]
       else [])
   ++ [AddEventListener "navigator.serviceWorker" "controllerchange"])%list.

(** What the fallback branch (lines 57-60) does to one element. *)
Definition loaded_if_lazy (img : Img) : Img :=
  if has_data_src img then load img else img.

(** Some intersecting entry of the batch targets the element. *)
Definition hit (entries : list IntersectionEntry) (img : nat) : bool :=
  existsb (fun entry => isIntersecting entry && Nat.eqb (target entry) img) entries.

End Perf.

(** ** Lines 2-13: the configuration written in the source *)

Definition CACHE_NAME_src : string := "portfolio-v2".

Definition urlsToCache_src : list string :=
  [ "/"; "/index.html"; "/critical.css"; "/styles.min.css"; "/responsive.css";
    "/navigation.js"; "/performance.js"; "/Profile.png"; "/favicon.ico" ].

(** ** A concrete site, its requests and its networks *)

Definition site : string := "https://portfolio.example".

Definition html (text : string) : Response.t :=
  Response.mk 200 ResponseType.basic text.

(** A network on which every request gets a same-origin 200 answer. *)
Definition online (request : Request.t) : Settled Response.t :=
  Fulfilled (html (Request.url request)).

Definition offline (_ : Request.t) : Settled Response.t :=
  Rejected "TypeError: Failed to fetch".

(** A network that answers with an opaque cross-origin response. *)
Definition cdn (_ : Request.t) : Settled Response.t :=
  Fulfilled (Response.mk 0 ResponseType.opaque "").

Definition roomy (_ : string) : bool := true.

Definition styles_request : Request.t :=
  Request.mk "GET" "https://portfolio.example/styles.min.css" "style"
    (Some "text/css,*/*;q=0.1").

Definition about_request : Request.t :=
  Request.mk "GET" "https://portfolio.example/about.html" "document"
    (Some "text/html,application/xhtml+xml").

Definition cdn_request : Request.t :=
  Request.mk "GET" "https://cdn.example/lib.js" "script" (Some "*/*").

Definition form_post : Request.t :=
  Request.mk "POST" "https://portfolio.example/contact" "" (Some "*/*").

Definition styles_css : Response.t :=
  Response.mk 200 ResponseType.basic "body{margin:0}".

Definition index_html : Response.t := html "<!doctype html>".

Definition v2_storage : CacheStorage :=
  [ (CACHE_NAME_src,
     <["https://portfolio.example/styles.min.css" := styles_css]>
       (<["https://portfolio.example/index.html" := index_html]> ∅)) ].

Definition two_versions : CacheStorage :=
  [ ("portfolio-v1", <["https://portfolio.example/index.html" := index_html]> ∅);
    (CACHE_NAME_src,
     <["https://portfolio.example/index.html" := html "v2"]> ∅) ].

Definition script_request : Request.t :=
  Request.mk "GET" "https://portfolio.example/navigation.js" "script" (Some "*/*").

(** A page load seen from the [load] listener ([loadEventEnd] is still
    unset), with its paint entries, and a document with two lazy images. *)
Definition load_timing : Perf.Timing :=
  {| Perf.navigationStart := 1700000000000;
     Perf.domContentLoadedEventEnd := 1700000000420;
     Perf.loadEventEnd := 0 |}.

Definition paint (kind : string) (at_ms : Z) : Perf.Entry Z :=
  {| Perf.name := kind; Perf.startTime := at_ms;
     Perf.value := 0; Perf.hadRecentInput := false |}.

Definition paints (_ : string) : list (Perf.Entry Z) :=
  [ paint "first-paint" 118; paint "first-contentful-paint" 131;
    paint "first-paint" 125 ].

Definition load_window : Perf.Window Z :=
  {| Perf.performance :=
       Some {| Perf.timing := Some load_timing;
               Perf.getEntriesByType := Some paints |};
     Perf.gtag := true |}.

Definition gallery : list Perf.Img :=
  [ {| Perf.src := "placeholder.gif"; Perf.data_src := Some "a.jpg";
       Perf.classList := ["thumb"] |};
    {| Perf.src := "logo.png"; Perf.data_src := None; Perf.classList := [] |};
    {| Perf.src := "placeholder.gif"; Perf.data_src := Some "b.jpg";
       Perf.classList := ["thumb"; "loaded"] |} ].

(** ** The worker *)

Section Worker.

(** Line 2 and lines 3-13: the version identifier and the precache
    manifest.  They are configuration of the worker; the values of the
    source are [CACHE_NAME_src] and [urlsToCache_src] above. *)
Variable CACHE_NAME : string.
Variable urlsToCache : list string.

(** [self.location.origin]. *)
Variable location_origin : string.

(** The environment of one event: what the network answers to a request,
    whether the store accepts a write for a URL (quota), the clock, and
    whether notifications may be shown. *)
Variable net : Request.t -> Settled Response.t.
Variable put_ok : string -> bool.
Variable now : Z.
Variable notifications_allowed : bool.

(** *** Platform primitives *)

Definition console_log (msg : string) : M unit :=
  fun s => (tt, s, [ConsoleLog msg]).

Definition skipWaiting : M unit := fun s => (tt, s, [SkipWaiting]).

Definition clients_claim : M unit := fun s => (tt, s, [ClientsClaim]).

Definition caches_open (name : string) : M string :=
  fun s => (name, s_open name s, [CachesOpen name]).

Definition caches_keys : M (list string) :=
  fun s => (s_names s, s, [CachesKeys]).

Definition caches_delete (name : string) : M bool :=
  fun s => (s_has name s, s_delete name s, [CachesDelete name]).

Definition caches_match (url : string) : M (option Response.t) :=
  fun s => (s_match url s, s, [CachesMatch url]).

(** [cache.put(request, response)]: rejects when the store refuses the write. *)
Definition cache_put (cache : string) (request : Request.t) (r : Response.t)
  : M (Settled unit) :=
  fun s =>
    if put_ok (Request.url request)
    then (Fulfilled tt, s_put cache (Request.url request) r s,
          [CachePut cache (Request.url request) r])
    else (Rejected "QuotaExceededError", s,
          [CachePut cache (Request.url request) r]).

Definition fetch (request : Request.t) : M (Settled Response.t) :=
  fun s => (net request, s, [NetFetch (Request.url request)]).

(** A root-relative path resolved against the worker's location. *)
Definition resolve (path : string) : string := String.append location_origin path.

(** The request [cache.addAll] and [caches.match] build from a URL string. *)
Definition request_of (path : string) : Request.t :=
  Request.mk "GET" (resolve path) "" None.

(** [Response.ok], with the partial-content status that [addAll] refuses. *)
Definition addable (r : Settled Response.t) : bool :=
  match r with
  | Fulfilled resp =>
      (200 <=? Response.status resp) && (Response.status resp <=? 299)
      && negb (Response.status resp =? 206)
  | Rejected _ => false
  end.

Fixpoint put_all (cache : string) (l : list (string * Settled Response.t))
  (s : CacheStorage) : CacheStorage :=
  match l with
  | [] => s
  | (u, Fulfilled r) :: rest => put_all cache rest (s_put cache u r s)
  | (_, Rejected _) :: rest => put_all cache rest s
  end.

(** [cache.addAll(urls)]: every URL is fetched; the batch is stored only
    when every fetch produced a storable response, otherwise the promise
    rejects and nothing is written. *)
Definition cache_addAll (cache : string) (urls : list string) : M (Settled unit) :=
  fun s =>
    let fetched := map (fun u => (resolve u, net (request_of u))) urls in
    let tr := (CacheAddAll cache urls :: map (fun u => NetFetch (resolve u)) urls)%list in
    if forallb (fun p => addable (snd p) && put_ok (fst p)) fetched
    then (Fulfilled tt, put_all cache fetched s, tr)
    else (Rejected "TypeError", s, tr).

Definition show_notification (title : string) (options : NotificationOptions)
  : M (Settled unit) :=
  fun s =>
    (if notifications_allowed then Fulfilled tt else Rejected "TypeError",
     s, [ShowNotification title options]).

(** *** Lines 16-28: install.  The result is the promise handed to
    [event.waitUntil]; its [catch] turns a rejection of the chain into a
    fulfilment.  [self.skipWaiting()] is issued by the listener body
    while the chain is pending; it touches no cache, so it is recorded
    after the chain it follows in the text. *)

Definition on_install : M (Settled unit) :=
  waited <~
    (cache <~ caches_open CACHE_NAME ;;
     console_log "Opened cache" ;;;
     added <~ cache_addAll cache urlsToCache ;;
     match added with
     | Fulfilled _ => ret (Fulfilled tt)
     | Rejected error =>
         console_log (String.append "Cache install failed: " error) ;;;
         ret (Fulfilled tt)
     end) ;;
  skipWaiting ;;;
  ret waited.

(** *** Lines 31-45: activate.  [caches.delete] resolves to a boolean and
    does not reject, so [Promise.all] fulfils. *)

(** The callback of [cacheNames.map] (lines 35-40); it yields [undefined]
    for the current cache. *)
Definition delete_if_stale (cacheName : string) : M (option bool) :=
  if negb (String.eqb cacheName CACHE_NAME)
  then console_log (String.append "Deleting old cache: " cacheName) ;;;
       deleted <~ caches_delete cacheName ;;
       ret (Some deleted)
  else ret None.

Definition on_activate : M (Settled unit) :=
  waited <~
    (cacheNames <~ caches_keys ;;
     _ <~ mapM delete_if_stale cacheNames ;;
     ret (Fulfilled tt)) ;;
  clients_claim ;;;
  ret waited.

(** *** Lines 48-98: fetch.  [PassThrough] is a return before
    [event.respondWith]; otherwise the result is the settled promise given
    to it, [None] standing for [undefined].  [fetch] always resolves to a
    response object, so the [!networkResponse] test of line 84 never
    holds and has no counterpart here. *)

Definition isHttp (request : Request.t) : bool :=
  String.eqb (URL_protocol (Request.url request)) "http:"
  || String.eqb (URL_protocol (Request.url request)) "https:".

Definition isHtml (request : Request.t) : bool :=
  let accept := match Request.accept request with
                | Some a => if String.eqb a "" then "" else a
                | None => ""
                end in
  String.eqb (Request.destination request) "document"
  || includes accept "text/html".

Definition same_origin (request : Request.t) : bool :=
  String.eqb (URL_origin (Request.url request)) location_origin.

(** The [caches.open(CACHE_NAME).then(cache => cache.put(..).catch(() => {}))]
    of lines 64-66 and 89-91; a refused write is swallowed.  The listener
    does not wait for this chain; its effect on the storage is accounted
    to the event that started it. *)
Definition store_copy (request : Request.t) (responseToCache : Response.t) : M unit :=
  cache <~ caches_open CACHE_NAME ;;
  _ <~ cache_put cache request responseToCache ;;
  ret tt.

Definition on_fetch (request : Request.t) : M FetchOutcome :=
  if negb (String.eqb (Request.method request) "GET") then ret PassThrough
  else if negb (isHttp request) then ret PassThrough
  else if isHtml request then
    fetched <~ fetch request ;;
    match fetched with
    | Fulfilled networkResponse =>
        (if same_origin request && (Response.status networkResponse =? 200)
         then store_copy request networkResponse
         else ret tt) ;;;
        ret (RespondWith (Fulfilled (Some networkResponse)))
    | Rejected _ =>
        r <~ caches_match (Request.url request) ;;
        match r with
        | Some cached => ret (RespondWith (Fulfilled (Some cached)))
        | None =>
            root <~ caches_match (resolve "/index.html") ;;
            ret (RespondWith (Fulfilled root))
        end
    end
  else
    cacheResponse <~ caches_match (Request.url request) ;;
    match cacheResponse with
    | Some cached => ret (RespondWith (Fulfilled (Some cached)))
    | None =>
        fetched <~ fetch request ;;
        match fetched with
        | Fulfilled networkResponse =>
            if negb (Response.status networkResponse =? 200)
               || negb (ResponseType.eqb (Response.type networkResponse) ResponseType.basic)
            then ret (RespondWith (Fulfilled (Some networkResponse)))
            else
              (if same_origin request
               then store_copy request networkResponse
               else ret tt) ;;;
              ret (RespondWith (Fulfilled (Some networkResponse)))
        | Rejected _ =>
            root <~ caches_match (resolve "/index.html") ;;
            ret (RespondWith (Fulfilled root))
        end
    end.


(** *** Lines 101-110: background sync *)

Definition doBackgroundSync : M (Settled unit) :=
  console_log "Background sync triggered" ;;;
  ret (Fulfilled tt).

Definition on_sync (tag : string) : M (Settled unit) :=
  if String.eqb tag "backgroundSync" then doBackgroundSync
  else ret (Fulfilled tt).

(** *** Lines 113-127: push.  [data] is [event.data]: the payload text, or
    [None] when the push carries none. *)

Definition on_push (data : option string) : M (Settled unit) :=
  let options :=
    {| body := match data with Some text => text | None => "New notification" end;
       icon := "/favicon.ico";
       badge := "/favicon.ico";
       vibrate := [100; 50; 100];
       data_dateOfArrival := now |} in
  show_notification "Portfolio Update" options.

(** *** Lines 130-134: message *)

(** [event.data && event.data.type === 'SKIP_WAITING'], left to right. *)
Definition skip_requested (data : JS.Val) : string + bool :=
  if JS.truthy data then
    match JS.get data "type" with
    | inl e => inl e
    | inr t => inr (JS.strict_eq_string t "SKIP_WAITING")
    end
  else inr false.

Definition on_message (data : JS.Val) : M Completion :=
  match skip_requested data with
  | inl e => ret (Throws e)
  | inr true => skipWaiting ;;; ret Normal
  | inr false => ret Normal
  end.


(** *** Predicates used to state the properties *)

(** A response passes the guard of the branch that fetched it: lines 63
    (documents) and 84, 88 (assets). *)
Definition cacheable (request : Request.t) (r : Response.t) : bool :=
  same_origin request && (Response.status r =? 200)
  && (isHtml request || ResponseType.eqb (Response.type r) ResponseType.basic).

(** A request reaches the network when the listener handles it and, for
    an asset, the caches hold no match. *)
Definition reaches_network (request : Request.t) (s : CacheStorage) : bool :=
  String.eqb (Request.method request) "GET" && isHttp request
  && (isHtml request ||
      match s_match (Request.url request) s with Some _ => false | None => true end).

(** A cache survives the purge of [names] when every purged name is the
    current one or differs from its own. *)
Definition survives (names : list string) (p : string * Cache) : bool :=
  forallb (fun a => String.eqb a CACHE_NAME || negb (String.eqb (fst p) a)) names.

(** Every manifest asset fetched with a storable response, and the store
    accepting each write. *)
Definition precache_succeeds : bool :=
  forallb (fun p => addable (snd p) && put_ok (fst p))
    (map (fun u => (resolve u, net (request_of u))) urlsToCache).

(** ** Properties of the storage operations *)

Lemma bind_result {A B} (m : M A) (k : A -> M B) s :
  result_of (bind m k s) = result_of (k (result_of (m s)) (storage_of (m s))).
Proof.
  unfold bind, result_of, storage_of.
  destruct (m s) as [[a s1] t1]; simpl.
  destruct (k a s1) as [[b s2] t2]; reflexivity.
Qed.

Lemma bind_storage {A B} (m : M A) (k : A -> M B) s :
  storage_of (bind m k s) = storage_of (k (result_of (m s)) (storage_of (m s))).
Proof.
  unfold bind, result_of, storage_of.
  destruct (m s) as [[a s1] t1]; simpl.
  destruct (k a s1) as [[b s2] t2]; reflexivity.
Qed.

Lemma bind_trace {A B} (m : M A) (k : A -> M B) s :
  trace_of (bind m k s) =
  (trace_of (m s) ++ trace_of (k (result_of (m s)) (storage_of (m s))))%list.
Proof.
  unfold bind, result_of, storage_of, trace_of.
  destruct (m s) as [[a s1] t1]; simpl.
  destruct (k a s1) as [[b s2] t2]; reflexivity.
Qed.

Lemma s_lookup_app name (s t : CacheStorage) :
  s_lookup name (s ++ t)%list =
  match s_lookup name s with Some c => Some c | None => s_lookup name t end.
Proof.
  induction s as [|[n c] s IH]; simpl; [reflexivity|].
  destruct (String.eqb n name); [reflexivity | exact IH].
Qed.

Lemma s_has_open name s : s_has name (s_open name s) = true.
Proof.
  unfold s_open. destruct (s_has name s) eqn:E; [exact E|].
  unfold s_has in *. rewrite s_lookup_app.
  destruct (s_lookup name s); [discriminate|].
  simpl. rewrite String.eqb_refl. reflexivity.
Qed.

Lemma s_has_open_other name n s : s_has n s = true -> s_has n (s_open name s) = true.
Proof.
  unfold s_open. destruct (s_has name s); [intros H; exact H|].
  unfold s_has. rewrite s_lookup_app.
  destruct (s_lookup n s); [reflexivity | discriminate].
Qed.

Lemma entry_open name s n k : entry (s_open name s) n k = entry s n k.
Proof.
  unfold s_open. destruct (s_has name s); [reflexivity|].
  unfold entry. rewrite s_lookup_app.
  destruct (s_lookup n s); [reflexivity|].
  simpl. destruct (String.eqb name n); [apply lookup_empty | reflexivity].
Qed.

Lemma s_lookup_update name f s n :
  s_lookup n (s_update name f s) =
  if String.eqb n name then f <$> s_lookup n s else s_lookup n s.
Proof.
  induction s as [|[m c] s IH]; simpl.
  - destruct (String.eqb n name); reflexivity.
  - destruct (String.eqb_spec m name) as [->|Hm]; simpl.
    + destruct (String.eqb_spec name n) as [->|Hn].
      * rewrite String.eqb_refl. reflexivity.
      * rewrite IH. reflexivity.
    + destruct (String.eqb_spec m n) as [->|Hn].
      * destruct (String.eqb_spec n name); [contradiction | reflexivity].
      * exact IH.
Qed.

Lemma s_has_put name url r s n : s_has n (s_put name url r s) = s_has n s.
Proof.
  unfold s_has, s_put. rewrite s_lookup_update.
  destruct (String.eqb n name), (s_lookup n s); reflexivity.
Qed.

Lemma entry_put name url r s n k :
  entry (s_put name url r s) n k =
  if String.eqb n name && String.eqb k url && s_has name s
  then Some r else entry s n k.
Proof.
  unfold entry, s_put, s_has. rewrite s_lookup_update.
  destruct (String.eqb_spec n name) as [->|Hn]; simpl; [|reflexivity].
  destruct (s_lookup name s) as [c|]; simpl.
  - destruct (String.eqb_spec k url) as [->|Hk]; simpl.
    + apply lookup_insert_eq.
    + apply lookup_insert_ne. congruence.
  - rewrite andb_false_r. reflexivity.
Qed.

Lemma s_lookup_None_names name (s : CacheStorage) :
  s_lookup name s = None -> ~ In name (s_names s).
Proof.
  induction s as [|[n c] s IH]; simpl; intros Hl Hin; [exact Hin|].
  destruct (String.eqb_spec n name) as [E|Hne]; [discriminate Hl|].
  destruct Hin as [E|Hin]; [contradiction | exact (IH Hl Hin)].
Qed.

(** Cache names stay distinct under the storage operations. *)
Lemma s_open_NoDup name s : NoDup (s_names s) -> NoDup (s_names (s_open name s)).
Proof.
  intros Hnd. unfold s_open, s_has.
  destruct (s_lookup name s) eqn:E; [exact Hnd|].
  unfold s_names. rewrite map_app. simpl.
  apply NoDup_app. split; [exact Hnd|]. split.
  - intros x Hx Hx'. apply list_elem_of_In in Hx, Hx'.
    destruct Hx' as [<-|[]]. exact (s_lookup_None_names name s E Hx).
  - apply NoDup_singleton.
Qed.

Lemma s_update_names name f s : s_names (s_update name f s) = s_names s.
Proof.
  unfold s_names, s_update. rewrite map_map. apply map_ext.
  intros p. destruct (String.eqb (fst p) name); reflexivity.
Qed.

Lemma s_delete_NoDup name s : NoDup (s_names s) -> NoDup (s_names (s_delete name s)).
Proof.
  induction s as [|[n c] s IH]; simpl; intros Hnd; [exact Hnd|].
  apply NoDup_cons in Hnd as [Hn Hnd].
  destruct (String.eqb n name); simpl; [exact (IH Hnd)|].
  apply NoDup_cons. split; [|exact (IH Hnd)].
  intros H. apply Hn. apply list_elem_of_In in H. apply list_elem_of_In.
  unfold s_names, s_delete in H. apply in_map_iff in H as (p & <- & Hp).
  apply filter_In in Hp as [Hp _]. apply in_map. exact Hp.
Qed.

Lemma filter_twice {A} (f g : A -> bool) (l : list A) :
  List.filter f (List.filter g l) = List.filter (fun x => g x && f x) l.
Proof.
  induction l as [|a l IH]; simpl; [reflexivity|].
  destruct (g a); simpl; [destruct (f a)|]; rewrite IH; reflexivity.
Qed.

Lemma keep_current_unique name (s : CacheStorage) c :
  NoDup (s_names s) -> s_lookup name s = Some c ->
  List.filter (fun p => String.eqb (fst p) name) s = [(name, c)].
Proof.
  induction s as [|[n d] s IH]; simpl; intros Hnd Hl; [discriminate|].
  apply NoDup_cons in Hnd as [Hn Hnd].
  rewrite list_elem_of_In in Hn.
  destruct (String.eqb_spec n name) as [->|Hne].
  - injection Hl as ->. f_equal.
    clear IH Hnd. induction s as [|[m e] s IH]; simpl; [reflexivity|].
    simpl in Hn.
    destruct (String.eqb_spec m name) as [->|_].
    + exfalso. apply Hn. left. reflexivity.
    + apply IH. intros H. apply Hn. right. exact H.
  - apply IH; assumption.
Qed.

(** ** The fetch listener *)

Lemma ResponseType_eqb_eq a b : ResponseType.eqb a b = true <-> a = b.
Proof. destruct a, b; simpl; split; intros H; congruence. Qed.

Lemma cacheable_spec request r :
  cacheable request r = true <->
  same_origin request = true /\ Response.status r = 200 /\
  (isHtml request = false -> Response.type r = ResponseType.basic).
Proof.
  unfold cacheable. rewrite !andb_true_iff, orb_true_iff, Z.eqb_eq, ResponseType_eqb_eq.
  destruct (isHtml request); intuition congruence.
Qed.

Ltac run_fetch :=
  unfold on_fetch, store_copy, bind, ret, fetch, caches_match, caches_open,
    cache_put, result_of, storage_of, trace_of; simpl.

(** The storage a fetch event leaves behind: untouched, or the current
    cache opened and, when the store took the write, the network
    response put under the request's URL; the latter only for a response
    that passed the guard. *)
Lemma on_fetch_storage request s :
  storage_of (on_fetch request s) = s \/
  exists r, net request = Fulfilled r /\ cacheable request r = true /\
    (storage_of (on_fetch request s) = s_open CACHE_NAME s \/
     storage_of (on_fetch request s) =
       s_put CACHE_NAME (Request.url request) r (s_open CACHE_NAME s)).
Proof.
  run_fetch.
  destruct (String.eqb (Request.method request) "GET"); simpl; [|left; reflexivity].
  destruct (isHttp request); simpl; [|left; reflexivity].
  destruct (isHtml request) eqn:Hd; simpl.
  - destruct (net request) as [r|e]; simpl.
    + destruct (same_origin request) eqn:Ho; simpl; [|left; reflexivity].
      destruct (Response.status r =? 200) eqn:Hst; simpl; [|left; reflexivity].
      right. exists r. split; [reflexivity|].
      split; [unfold cacheable; rewrite Ho, Hst, Hd; reflexivity|].
      destruct (put_ok (Request.url request)); simpl; [right|left]; reflexivity.
    + destruct (s_match (Request.url request) s); left; reflexivity.
  - destruct (s_match (Request.url request) s); simpl; [left; reflexivity|].
    destruct (net request) as [r|e]; simpl; [|left; reflexivity].
    destruct (Response.status r =? 200) eqn:Hst; simpl; [|left; reflexivity].
    destruct (ResponseType.eqb (Response.type r) ResponseType.basic) eqn:Hty; simpl;
      [|left; reflexivity].
    destruct (same_origin request) eqn:Ho; simpl; [|left; reflexivity].
    right. exists r. split; [reflexivity|].
    split; [unfold cacheable; rewrite Ho, Hst, Hd, Hty; reflexivity|].
    destruct (put_ok (Request.url request)); simpl; [right|left]; reflexivity.
Qed.

(** Every [cache.put] a fetch event issues targets the current cache,
    under the request's own URL, with the network response, and only
    after the guard. *)
Lemma on_fetch_puts request s name url r :
  In (CachePut name url r) (trace_of (on_fetch request s)) ->
  name = CACHE_NAME /\ url = Request.url request /\
  net request = Fulfilled r /\ cacheable request r = true.
Proof.
  run_fetch.
  destruct (String.eqb (Request.method request) "GET"); simpl; [|tauto].
  destruct (isHttp request); simpl; [|tauto].
  destruct (isHtml request) eqn:Hd; simpl.
  - destruct (net request) as [r0|e]; simpl.
    + destruct (same_origin request) eqn:Ho; simpl; [|intuition discriminate].
      destruct (Response.status r0 =? 200) eqn:Hst; simpl; [|intuition discriminate].
      assert (Hc : cacheable request r0 = true)
        by (unfold cacheable; rewrite Ho, Hst, Hd; reflexivity).
      destruct (put_ok (Request.url request)); simpl;
        intros [H|[H|[H|[]]]]; try discriminate; injection H as <- <- <-; auto.
    + destruct (s_match (Request.url request) s); simpl; intuition discriminate.
  - destruct (s_match (Request.url request) s); simpl; [intuition discriminate|].
    destruct (net request) as [r0|e]; simpl; [|intuition discriminate].
    destruct (Response.status r0 =? 200) eqn:Hst; simpl; [|intuition discriminate].
    destruct (ResponseType.eqb (Response.type r0) ResponseType.basic) eqn:Hty; simpl;
      [|intuition discriminate].
    destruct (same_origin request) eqn:Ho; simpl; [|intuition discriminate].
    assert (Hc : cacheable request r0 = true)
      by (unfold cacheable; rewrite Ho, Hst, Hd, Hty; reflexivity).
    destruct (put_ok (Request.url request)); simpl;
      intros [H|[H|[H|[H|[]]]]]; try discriminate; injection H as <- <- <-; auto.
Qed.

(** C1. A fetch event writes a response into the cache only when the
    request is same-origin and the response has status 200 and, on the
    asset path, basic type: this holds of every [cache.put] issued and of
    every entry found afterwards that was not there before.  A network
    response that fails the guard is still the one handed to the page,
    and the storage is left exactly as it was. *)
Theorem fetch_caches_only_conforming (request : Request.t) (s : CacheStorage) :
  (forall name url r,
      In (CachePut name url r) (trace_of (on_fetch request s)) ->
      name = CACHE_NAME /\ url = Request.url request /\
      same_origin request = true /\ Response.status r = 200 /\
      (isHtml request = false -> Response.type r = ResponseType.basic)) /\
  (forall name url r,
      entry (storage_of (on_fetch request s)) name url = Some r ->
      entry s name url = Some r \/
      (name = CACHE_NAME /\ url = Request.url request /\
       same_origin request = true /\ Response.status r = 200 /\
       (isHtml request = false -> Response.type r = ResponseType.basic))) /\
  (forall r,
      reaches_network request s = true ->
      net request = Fulfilled r ->
      cacheable request r = false ->
      result_of (on_fetch request s) = RespondWith (Fulfilled (Some r)) /\
      storage_of (on_fetch request s) = s /\
      forall name url r', ~ In (CachePut name url r') (trace_of (on_fetch request s))).
Proof.
  split; [|split].
  - intros name url r Hin.
    apply on_fetch_puts in Hin as (-> & -> & _ & Hc).
    apply cacheable_spec in Hc. tauto.
  - intros name url r He.
    destruct (on_fetch_storage request s) as [Hs|(r0 & Hn & Hc & [Hs|Hs])];
      rewrite Hs in He.
    + left. exact He.
    + left. rewrite entry_open in He. exact He.
    + rewrite entry_put, entry_open in He.
      destruct (String.eqb_spec name CACHE_NAME) as [->|_]; simpl in He; [|tauto].
      destruct (String.eqb_spec url (Request.url request)) as [->|_]; simpl in He;
        [|tauto].
      destruct (s_has CACHE_NAME (s_open CACHE_NAME s)); [|tauto].
      injection He as <-. right. apply cacheable_spec in Hc. tauto.
  - intros r Hreach Hn Hc.
    assert (Hput : forall name url r',
               ~ In (CachePut name url r') (trace_of (on_fetch request s))).
    { intros name url r' Hin. apply on_fetch_puts in Hin as (_ & _ & Hn' & Hc').
      rewrite Hn in Hn'. injection Hn' as <-. congruence. }
    split; [|split; [|exact Hput]].
    + clear Hput. revert Hreach Hc. unfold reaches_network, cacheable. run_fetch.
      destruct (String.eqb (Request.method request) "GET"); simpl; [|discriminate].
      destruct (isHttp request); simpl; [|discriminate].
      destruct (isHtml request); simpl.
      * rewrite Hn; simpl. intros _ _.
        destruct (same_origin request && (Response.status r =? 200)); simpl;
          [destruct (put_ok (Request.url request))|]; reflexivity.
      * destruct (s_match (Request.url request) s); [discriminate|].
        rewrite Hn; simpl. intros _ _.
        destruct (Response.status r =? 200); simpl; [|reflexivity].
        destruct (ResponseType.eqb (Response.type r) ResponseType.basic); simpl;
          [|reflexivity].
        destruct (same_origin request); simpl;
          [destruct (put_ok (Request.url request))|]; reflexivity.
    + destruct (on_fetch_storage request s) as [Hs|(r0 & Hn' & Hc' & _)];
        [exact Hs|].
      rewrite Hn in Hn'. injection Hn' as <-. congruence.
Qed.

(** C4. A request whose method is not GET, or whose scheme is neither
    http nor https, is passed through: the listener does not call
    [respondWith], performs no cache operation (nor any other effect),
    and the storage is unchanged. *)
Theorem fetch_passes_through_unhandled (request : Request.t) (s : CacheStorage) :
  Request.method request <> "GET" \/
  (URL_protocol (Request.url request) <> "http:" /\
   URL_protocol (Request.url request) <> "https:") ->
  on_fetch request s = (PassThrough, s, []).
Proof.
  intros H. unfold on_fetch, isHttp.
  destruct (String.eqb_spec (Request.method request) "GET") as [Hm|Hm]; simpl;
    [|reflexivity].
  destruct H as [H|[H1 H2]]; [contradiction|].
  destruct (String.eqb_spec (URL_protocol (Request.url request)) "http:");
    [contradiction|].
  destruct (String.eqb_spec (URL_protocol (Request.url request)) "https:");
    [contradiction|].
  reflexivity.
Qed.

(** C2. An asset request (GET, http or https, not a document) that has a
    match in the caches is answered with the cached response; the network
    is not called and the storage is unchanged. *)
Theorem asset_hit_served_from_cache
  (request : Request.t) (s : CacheStorage) (cached : Response.t) :
  Request.method request = "GET" ->
  isHttp request = true ->
  isHtml request = false ->
  s_match (Request.url request) s = Some cached ->
  result_of (on_fetch request s) = RespondWith (Fulfilled (Some cached)) /\
  storage_of (on_fetch request s) = s /\
  network_calls (trace_of (on_fetch request s)) = 0%nat /\
  trace_of (on_fetch request s) = [CachesMatch (Request.url request)].
Proof.
  intros Hm Hh Hd Hc. run_fetch.
  rewrite Hm, Hh, Hd; simpl. rewrite Hc; simpl. auto.
Qed.

(** C3. A document request whose network fetch fails is answered with the
    cached copy of that request and, when there is none, with the cached
    [/index.html]; so with [/index.html] cached the answer is always a
    response, and it is the root document whenever the request has no
    entry of its own. *)
Theorem document_offline_fallback
  (request : Request.t) (s : CacheStorage) (e : string) :
  Request.method request = "GET" ->
  isHttp request = true ->
  isHtml request = true ->
  net request = Rejected e ->
  result_of (on_fetch request s) =
    RespondWith (Fulfilled
      match s_match (Request.url request) s with
      | Some own => Some own
      | None => s_match (resolve "/index.html") s
      end) /\
  (forall root, s_match (resolve "/index.html") s = Some root ->
     (exists r, result_of (on_fetch request s) = RespondWith (Fulfilled (Some r))) /\
     (s_match (Request.url request) s = None ->
      result_of (on_fetch request s) = RespondWith (Fulfilled (Some root)))).
Proof.
  intros Hm Hh Hd Hn.
  assert (Hres : result_of (on_fetch request s) =
    RespondWith (Fulfilled
      match s_match (Request.url request) s with
      | Some own => Some own
      | None => s_match (resolve "/index.html") s
      end)).
  { run_fetch. rewrite Hm, Hh, Hd; simpl. rewrite Hn; simpl.
    destruct (s_match (Request.url request) s); reflexivity. }
  split; [exact Hres|].
  intros root Hroot. rewrite Hres, Hroot. split.
  - destruct (s_match (Request.url request) s) as [own|]; eauto.
  - intros ->. reflexivity.
Qed.


(** X20. In that situation the listener catches the fetch error and
    discards it: the promise given to [respondWith] does not reject, it
    fulfils with [undefined], no response at all, and the storage is
    unchanged. *)
Theorem fetch_failure_without_fallback
  (request : Request.t) (s : CacheStorage) (e : string) :
  Request.method request = "GET" ->
  isHttp request = true ->
  net request = Rejected e ->
  s_match (Request.url request) s = None ->
  s_match (resolve "/index.html") s = None ->
  result_of (on_fetch request s) = RespondWith (Fulfilled None) /\
  storage_of (on_fetch request s) = s.
Proof.
  intros Hm Hh Hn Hown Hroot. run_fetch.
  rewrite Hm, Hh; simpl.
  destruct (isHtml request); simpl; rewrite ?Hown, Hn; simpl;
    rewrite ?Hown, Hroot; simpl; auto.
Qed.

(** ** Install and activate *)

Lemma purge_storage names s :
  storage_of (mapM delete_if_stale names s) = List.filter (survives names) s.
Proof.
  revert s. induction names as [|a names IH]; intros s.
  - simpl. unfold ret, storage_of; simpl.
    induction s as [|p s IHs]; simpl; [reflexivity | f_equal; exact IHs].
  - cbn [mapM]. rewrite bind_storage, bind_storage.
    unfold ret at 1. cbn [storage_of fst snd]. rewrite IH.
    unfold delete_if_stale.
    destruct (String.eqb a CACHE_NAME) eqn:Ea; cbn [negb].
    + unfold ret, storage_of; cbn [fst snd].
      apply List.filter_ext. intros p. unfold survives. cbn [forallb].
      rewrite Ea. reflexivity.
    + unfold bind, console_log, caches_delete, ret, storage_of; cbn [fst snd].
      unfold s_delete. rewrite filter_twice.
      apply List.filter_ext. intros p. unfold survives. cbn [forallb].
      rewrite Ea. reflexivity.
Qed.

Lemma survives_own_names (s : CacheStorage) p :
  In p s -> survives (s_names s) p = String.eqb (fst p) CACHE_NAME.
Proof.
  intros Hin. unfold survives.
  destruct (String.eqb_spec (fst p) CACHE_NAME) as [Hp|Hp].
  - apply forallb_forall. intros a _.
    destruct (String.eqb_spec a CACHE_NAME) as [->|Ha]; [reflexivity|].
    rewrite Hp. simpl. destruct (String.eqb_spec CACHE_NAME a); [congruence | reflexivity].
  - destruct (forallb _ (s_names s)) eqn:E; [|reflexivity].
    rewrite forallb_forall in E.
    specialize (E (fst p) (in_map fst s p Hin)).
    rewrite String.eqb_refl in E.
    destruct (String.eqb_spec (fst p) CACHE_NAME); [contradiction | discriminate].
Qed.

Lemma on_activate_storage s :
  storage_of (on_activate s) =
  List.filter (fun p => String.eqb (fst p) CACHE_NAME) s.
Proof.
  unfold on_activate. rewrite !bind_storage.
  unfold ret at 1 2, clients_claim. cbn [storage_of fst snd].
  unfold caches_keys at 2. cbn [result_of storage_of fst snd].
  unfold caches_keys. cbn [fst snd].
  rewrite purge_storage.
  apply List.filter_ext_in. intros p Hin. apply survives_own_names, Hin.
Qed.

Lemma on_activate_result s : result_of (on_activate s) = Fulfilled tt.
Proof.
  unfold on_activate. rewrite !bind_result. reflexivity.
Qed.

Lemma s_lookup_keep name (s : CacheStorage) n :
  s_lookup n (List.filter (fun p => String.eqb (fst p) name) s) =
  if String.eqb n name then s_lookup n s else None.
Proof.
  induction s as [|[m c] s IH]; simpl.
  - destruct (String.eqb n name); reflexivity.
  - destruct (String.eqb_spec m name) as [->|Hm]; simpl.
    + destruct (String.eqb_spec name n) as [->|Hn].
      * rewrite String.eqb_refl. reflexivity.
      * exact IH.
    + rewrite IH. destruct (String.eqb_spec n name) as [En|Hn]; [|reflexivity].
      destruct (String.eqb_spec m n); [congruence | reflexivity].
Qed.

Lemma put_all_has cache l s n : s_has n (put_all cache l s) = s_has n s.
Proof.
  revert s. induction l as [|[u [r|e]] l IH]; intros s; simpl.
  - reflexivity.
  - rewrite IH. apply s_has_put.
  - apply IH.
Qed.

Lemma put_all_entry cache l s k r :
  s_has cache s = true ->
  (forall x, In (k, x) l -> x = Fulfilled r) ->
  entry s cache k = Some r \/ In (k, Fulfilled r) l ->
  entry (put_all cache l s) cache k = Some r.
Proof.
  revert s. induction l as [|[u x] l IH]; intros s Hhas Hcons Hsrc.
  - simpl. destruct Hsrc as [H|[]]. exact H.
  - assert (Hrest : forall y, In (k, y) l -> y = Fulfilled r)
      by (intros y Hy; apply Hcons; right; exact Hy).
    destruct (String.eqb_spec k u) as [->|Hku].
    + rewrite (Hcons x (or_introl eq_refl)). simpl.
      apply IH; [rewrite s_has_put; exact Hhas | exact Hrest |].
      left. rewrite entry_put, !String.eqb_refl, Hhas. reflexivity.
    + assert (Hsrc' : entry s cache k = Some r \/ In (k, Fulfilled r) l).
      { destruct Hsrc as [H|[H|H]]; [left; exact H | congruence | right; exact H]. }
      destruct x as [r0|e]; simpl.
      * apply IH; [rewrite s_has_put; exact Hhas | exact Hrest |].
        destruct Hsrc' as [H|H]; [left | right; exact H].
        rewrite entry_put. destruct (String.eqb_spec k u); [contradiction|].
        rewrite andb_false_r. exact H.
      * apply IH; assumption.
Qed.

Lemma on_install_storage s :
  storage_of (on_install s) =
  if precache_succeeds
  then put_all CACHE_NAME
         (map (fun u => (resolve u, net (request_of u))) urlsToCache)
         (s_open CACHE_NAME s)
  else s_open CACHE_NAME s.
Proof.
  unfold on_install, precache_succeeds, bind, ret, caches_open, console_log,
    cache_addAll, skipWaiting, storage_of. simpl.
  destruct (forallb _ _); reflexivity.
Qed.

Lemma on_install_has s : s_has CACHE_NAME (storage_of (on_install s)) = true.
Proof.
  rewrite on_install_storage.
  destruct precache_succeeds; [rewrite put_all_has|]; apply s_has_open.
Qed.

Lemma failed_asset_fails_precache u :
  In u urlsToCache -> addable (net (request_of u)) = false ->
  precache_succeeds = false.
Proof.
  intros Hin Hbad. unfold precache_succeeds.
  destruct (forallb _ _) eqn:E; [|reflexivity].
  rewrite forallb_forall in E.
  specialize (E (resolve u, net (request_of u))).
  simpl in E. rewrite Hbad in E. symmetry. apply E.
  apply in_map_iff. exists u. split; [reflexivity | exact Hin].
Qed.

(** C5. Activation keeps exactly the caches named [CACHE_NAME], with
    their contents, and deletes all the others.  Hence installing the
    current version over a storage and then activating it leaves no cache
    under any other name [old], leaves the current cache with the entries
    the install gave it, and these include every manifest asset when the
    precache succeeded. *)
Theorem activate_deletes_exactly_stale (s : CacheStorage) (old : string) :
  old <> CACHE_NAME ->
  storage_of (on_activate s) =
    List.filter (fun p => String.eqb (fst p) CACHE_NAME) s /\
  (forall name,
      s_has name (storage_of (on_activate s)) = true <->
      name = CACHE_NAME /\ s_has name s = true) /\
  (forall url, entry (storage_of (on_activate s)) CACHE_NAME url =
               entry s CACHE_NAME url) /\
  let installed := storage_of (on_install s) in
  let activated := storage_of (on_activate installed) in
  s_has old activated = false /\
  s_has CACHE_NAME activated = true /\
  (forall url, entry activated CACHE_NAME url = entry installed CACHE_NAME url) /\
  (precache_succeeds = true ->
   forall u r, In u urlsToCache -> net (request_of u) = Fulfilled r ->
               entry activated CACHE_NAME (resolve u) = Some r).
Proof.
  intros Hold.
  assert (Hhas : forall t name,
             s_has name (storage_of (on_activate t)) = true <->
             name = CACHE_NAME /\ s_has name t = true).
  { intros t name. unfold s_has. rewrite on_activate_storage, s_lookup_keep.
    destruct (String.eqb_spec name CACHE_NAME); intuition congruence. }
  assert (Hent : forall t url,
             entry (storage_of (on_activate t)) CACHE_NAME url =
             entry t CACHE_NAME url).
  { intros t url. unfold entry.
    rewrite on_activate_storage, s_lookup_keep, String.eqb_refl. reflexivity. }
  split; [apply on_activate_storage|].
  split; [apply Hhas|].
  split; [apply Hent|].
  cbv zeta. split; [|split; [|split]].
  - destruct (s_has old _) eqn:E; [|reflexivity].
    apply Hhas in E as [E _]. contradiction.
  - apply Hhas. split; [reflexivity | apply on_install_has].
  - apply Hent.
  - intros Hok u r Hin Hnet. rewrite Hent, on_install_storage, Hok.
    apply put_all_entry.
    + apply s_has_open.
    + intros x Hx. apply in_map_iff in Hx as (u' & Heq & _).
      injection Heq as Hu <-. rewrite <- Hnet.
      unfold request_of. rewrite Hu. reflexivity.
    + right. apply in_map_iff. exists u. rewrite Hnet. split; [reflexivity | exact Hin].
Qed.

(** C6. Activating twice with the same version identifier, from a
    storage whose cache names are distinct and which holds the current
    cache, raises no error either time and leaves exactly one cache: the
    current one, with the contents it had; the second activation changes
    nothing. *)
Theorem activate_idempotent (s : CacheStorage) (current : Cache) :
  NoDup (s_names s) ->
  s_lookup CACHE_NAME s = Some current ->
  let once := on_activate s in
  let twice := on_activate (storage_of once) in
  result_of once = Fulfilled tt /\
  result_of twice = Fulfilled tt /\
  storage_of twice = [(CACHE_NAME, current)] /\
  storage_of twice = storage_of once.
Proof.
  intros Hnd Hcur. cbv zeta.
  rewrite !on_activate_result, !on_activate_storage.
  rewrite (keep_current_unique CACHE_NAME s current Hnd Hcur).
  simpl. rewrite String.eqb_refl. auto.
Qed.

(** C7. When some manifest asset cannot be fetched (the network fails or
    answers with a status [addAll] refuses), [cache.addAll] rejects as a
    whole and writes nothing; the install listener logs the failure and
    the promise it waits on still fulfils.  The current cache exists
    afterwards, holding only what it held before. *)
Theorem install_swallows_precache_failure (s : CacheStorage) (u : string) :
  In u urlsToCache ->
  addable (net (request_of u)) = false ->
  result_of (cache_addAll CACHE_NAME urlsToCache (s_open CACHE_NAME s)) =
    Rejected "TypeError" /\
  result_of (on_install s) = Fulfilled tt /\
  In (ConsoleLog "Cache install failed: TypeError") (trace_of (on_install s)) /\
  In SkipWaiting (trace_of (on_install s)) /\
  storage_of (on_install s) = s_open CACHE_NAME s /\
  s_has CACHE_NAME (storage_of (on_install s)) = true /\
  (forall url, entry (storage_of (on_install s)) CACHE_NAME url =
               entry s CACHE_NAME url).
Proof.
  intros Hin Hbad.
  pose proof (failed_asset_fails_precache u Hin Hbad) as Hfail.
  assert (Hst : storage_of (on_install s) = s_open CACHE_NAME s)
    by (rewrite on_install_storage, Hfail; reflexivity).
  rewrite Hst. unfold precache_succeeds in Hfail.
  unfold on_install, bind, ret, caches_open, console_log, cache_addAll,
    skipWaiting, result_of, trace_of. simpl. rewrite Hfail. simpl.
  repeat split.
  - rewrite !in_app_iff. simpl. auto 10.
  - rewrite !in_app_iff. simpl. auto 10.
  - apply s_has_open.
  - intros url. apply entry_open.
Qed.

(** ** The auxiliary listeners *)

(** C9. The sync, push and message listeners perform no cache operation
    and leave the storage as it was, whatever the event carries. *)
Theorem auxiliary_listeners_leave_caches
  (tag : string) (payload : option string) (data : JS.Val) (s : CacheStorage) :
  (storage_of (on_sync tag s) = s /\
   forallb (fun e => negb (is_cache_effect e)) (trace_of (on_sync tag s)) = true) /\
  (storage_of (on_push payload s) = s /\
   forallb (fun e => negb (is_cache_effect e)) (trace_of (on_push payload s)) = true) /\
  (storage_of (on_message data s) = s /\
   forallb (fun e => negb (is_cache_effect e)) (trace_of (on_message data s)) = true).
Proof.
  split; [|split].
  - unfold on_sync, doBackgroundSync.
    destruct (String.eqb tag "backgroundSync"); split; reflexivity.
  - unfold on_push, show_notification. split; reflexivity.
  - unfold on_message.
    destruct (skip_requested data) as [e|[|]]; split; reflexivity.
Qed.

Lemma skip_requested_spec (data : JS.Val) :
  skip_requested data =
  inr (match JS.get data "type" with
       | inr (JS.Str t) => String.eqb t "SKIP_WAITING"
       | _ => false
       end).
Proof using Type.
  unfold skip_requested.
  destruct data as [| |b|n| |t|props]; simpl; try reflexivity.
  - destruct b; reflexivity.
  - destruct (n =? 0); reflexivity.
  - destruct (String.eqb t ""); reflexivity.
Qed.

(** C10. The message listener completes normally on every payload,
    [null] and [undefined] included, leaves the storage alone, and calls
    [skipWaiting] (once) exactly when reading [type] off the payload
    succeeds and gives the string [SKIP_WAITING]. *)
Theorem message_listener_total (data : JS.Val) (s : CacheStorage) :
  result_of (on_message data s) = Normal /\
  storage_of (on_message data s) = s /\
  (JS.get data "type" = inr (JS.Str "SKIP_WAITING") ->
   trace_of (on_message data s) = [SkipWaiting]) /\
  (JS.get data "type" <> inr (JS.Str "SKIP_WAITING") ->
   trace_of (on_message data s) = []) /\
  (In SkipWaiting (trace_of (on_message data s)) <->
   JS.get data "type" = inr (JS.Str "SKIP_WAITING")).
Proof using Type.
  unfold on_message. rewrite skip_requested_spec.
  destruct (JS.get data "type") as [e|v] eqn:Hget;
    [|destruct v as [| |b|n| |t|props];
      try destruct (String.eqb_spec t "SKIP_WAITING") as [->|Hne]];
    simpl;
    repeat match goal with
      | |- _ /\ _ => split
      | |- _ <-> _ => split
      | |- _ -> _ => intros H
      end;
    solve
      [ reflexivity
      | discriminate H
      | left; reflexivity
      | destruct H
      | exfalso; apply H; reflexivity
      | injection H as H; contradiction ].
Qed.

(** ** Further properties of the listeners *)

Lemma s_match_app url (s t : CacheStorage) :
  s_match url (s ++ t)%list =
  match s_match url s with Some r => Some r | None => s_match url t end.
Proof.
  induction s as [|[n c] s IH]; simpl; [reflexivity|].
  destruct (c !! url); [reflexivity | exact IH].
Qed.

Lemma s_match_open name url s : s_match url (s_open name s) = s_match url s.
Proof.
  unfold s_open. destruct (s_has name s); [reflexivity|].
  rewrite s_match_app. simpl. rewrite lookup_empty.
  destruct (s_match url s); reflexivity.
Qed.

(** A write into the cache called [name] is what [caches.match] finds when
    no cache of another name holds the URL. *)
Lemma s_match_put name url r (s : CacheStorage) :
  (forall n c, In (n, c) s -> n <> name -> c !! url = None) ->
  s_has name s = true ->
  s_match url (s_put name url r s) = Some r.
Proof.
  unfold s_has, s_put.
  induction s as [|[n c] s IH]; simpl; intros Hothers Hhas; [discriminate Hhas|].
  destruct (String.eqb_spec n name) as [->|Hne]; simpl.
  - rewrite lookup_insert_eq. reflexivity.
  - rewrite (Hothers n c (or_introl eq_refl) Hne).
    apply IH; [|exact Hhas].
    intros n' c' Hin. apply Hothers. right. exact Hin.
Qed.

Lemma s_match_None_lacks url (s : CacheStorage) n c :
  s_match url s = None -> In (n, c) s -> c !! url = None.
Proof.
  induction s as [|[m d] s IH]; simpl; intros Hm Hin; [contradiction|].
  destruct (d !! url) eqn:E; [discriminate Hm|].
  destruct Hin as [Heq|Hin]; [injection Heq as <- <-; exact E | exact (IH Hm Hin)].
Qed.

Lemma In_s_open name (s : CacheStorage) n c :
  In (n, c) (s_open name s) -> In (n, c) s \/ (n = name /\ c = ∅).
Proof.
  unfold s_open. destruct (s_has name s); [left; assumption|].
  intros H. apply in_app_or in H as [H|[H|[]]]; [left; exact H|].
  injection H as <- <-. right. split; reflexivity.
Qed.

Lemma entry_found_by_match (s : CacheStorage) name url r :
  entry s name url = Some r -> exists r', s_match url s = Some r'.
Proof.
  unfold entry.
  induction s as [|[n c] s IH]; simpl; intros H; [discriminate H|].
  destruct (c !! url) as [r0|] eqn:E; [exists r0; reflexivity|].
  destruct (String.eqb n name); [congruence | exact (IH H)].
Qed.

Lemma keep_NoDup (f : string * Cache -> bool) (s : CacheStorage) :
  NoDup (s_names s) -> NoDup (s_names (List.filter f s)).
Proof.
  induction s as [|[n c] s IH]; simpl; intros Hnd; [exact Hnd|].
  apply NoDup_cons in Hnd as [Hn Hnd].
  destruct (f (n, c)); simpl; [|exact (IH Hnd)].
  apply NoDup_cons. split; [|exact (IH Hnd)].
  intros H. apply Hn. apply list_elem_of_In in H. apply list_elem_of_In.
  unfold s_names in H. apply in_map_iff in H as (p & <- & Hp).
  apply filter_In in Hp as [Hp _]. apply in_map. exact Hp.
Qed.

Lemma keep_absent name (s : CacheStorage) :
  s_lookup name s = None ->
  List.filter (fun p => String.eqb (fst p) name) s = [].
Proof.
  induction s as [|[n c] s IH]; simpl; intros Hl; [reflexivity|].
  destruct (String.eqb n name); [discriminate Hl | exact (IH Hl)].
Qed.

Lemma put_all_names cache l s : s_names (put_all cache l s) = s_names s.
Proof.
  revert s. induction l as [|[u [r|e]] l IH]; intros s; simpl.
  - reflexivity.
  - rewrite IH. apply s_update_names.
  - apply IH.
Qed.

Lemma put_all_entry_other cache l s n k :
  n <> cache \/ (forall x, ~ In (k, x) l) ->
  entry (put_all cache l s) n k = entry s n k.
Proof.
  revert s. induction l as [|[u x] l IH]; intros s Hfar; [reflexivity|].
  assert (Hrest : n <> cache \/ (forall y, ~ In (k, y) l)).
  { destruct Hfar as [H|H]; [left; exact H | right].
    intros y Hy. apply (H y). right. exact Hy. }
  destruct x as [r|e]; simpl; [|exact (IH s Hrest)].
  rewrite (IH _ Hrest), entry_put.
  destruct (String.eqb_spec n cache) as [Hn|Hn]; [|reflexivity].
  destruct (String.eqb_spec k u) as [Hk|Hk]; [|reflexivity].
  exfalso. destruct Hfar as [H|H]; [exact (H Hn)|].
  apply (H (Fulfilled r)). left. rewrite Hk. reflexivity.
Qed.

Lemma network_calls_app t1 t2 :
  network_calls (t1 ++ t2)%list = (network_calls t1 + network_calls t2)%nat.
Proof.
  unfold network_calls. rewrite List.filter_app, length_app. reflexivity.
Qed.

Lemma deleted_names_app t1 t2 :
  deleted_names (t1 ++ t2)%list = (deleted_names t1 ++ deleted_names t2)%list.
Proof. unfold deleted_names. apply flat_map_app. Qed.

Lemma purge_trace names s :
  deleted_names (trace_of (mapM delete_if_stale names s)) =
    List.filter (fun n => negb (String.eqb n CACHE_NAME)) names /\
  network_calls (trace_of (mapM delete_if_stale names s)) = 0%nat.
Proof.
  revert s. induction names as [|a names IH]; intros s; [split; reflexivity|].
  cbn [mapM]. rewrite !bind_trace.
  change (trace_of (ret ?x ?t)) with (@nil Effect). rewrite app_nil_r.
  rewrite deleted_names_app, network_calls_app.
  destruct (IH (storage_of (delete_if_stale a s))) as [Hd Hn].
  rewrite Hd, Hn. unfold delete_if_stale. simpl.
  destruct (String.eqb a CACHE_NAME); simpl; split; reflexivity.
Qed.

(** X1. A fetch event calls the network once when the request reaches
    it (a handled document, or a handled asset without a cached match)
    and not at all otherwise: there is no retry and no second request. *)
Theorem fetch_network_call_count (request : Request.t) (s : CacheStorage) :
  network_calls (trace_of (on_fetch request s)) =
  if reaches_network request s then 1%nat else 0%nat.
Proof.
  unfold reaches_network. run_fetch.
  destruct (String.eqb (Request.method request) "GET"); simpl; [|reflexivity].
  destruct (isHttp request); simpl; [|reflexivity].
  destruct (isHtml request); simpl.
  - destruct (net request) as [r|e]; simpl.
    + destruct (same_origin request && (Response.status r =? 200)); simpl;
        [destruct (put_ok (Request.url request))|]; reflexivity.
    + destruct (s_match (Request.url request) s); reflexivity.
  - destruct (s_match (Request.url request) s); simpl; [reflexivity|].
    destruct (net request) as [r|e]; simpl; [|reflexivity].
    destruct (negb (Response.status r =? 200)
              || negb (ResponseType.eqb (Response.type r) ResponseType.basic));
      simpl; [reflexivity|].
    destruct (same_origin request); simpl;
      [destruct (put_ok (Request.url request))|]; reflexivity.
Qed.

(** X2. Whenever the network is consulted and answers, the page receives
    exactly that answer, whether or not it is also copied into the cache
    and whatever the caches held for the request. *)
Theorem network_answer_is_delivered
  (request : Request.t) (s : CacheStorage) (r : Response.t) :
  reaches_network request s = true ->
  net request = Fulfilled r ->
  result_of (on_fetch request s) = RespondWith (Fulfilled (Some r)).
Proof.
  unfold reaches_network. run_fetch.
  destruct (String.eqb (Request.method request) "GET"); simpl; [|discriminate].
  destruct (isHttp request); simpl; [|discriminate].
  destruct (isHtml request); simpl; intros Hreach Hn.
  - rewrite Hn; simpl.
    destruct (same_origin request && (Response.status r =? 200)); simpl;
      [destruct (put_ok (Request.url request))|]; reflexivity.
  - destruct (s_match (Request.url request) s); [discriminate Hreach|].
    rewrite Hn; simpl.
    destruct (negb (Response.status r =? 200)
              || negb (ResponseType.eqb (Response.type r) ResponseType.basic));
      simpl; [reflexivity|].
    destruct (same_origin request); simpl;
      [destruct (put_ok (Request.url request))|]; reflexivity.
Qed.

(** X3. When the network fails, a fetch event leaves the storage as it
    was and attempts no write; an asset request without a cached match
    is then answered with whatever the caches hold for [/index.html],
    the root document standing in for the asset. *)
Theorem failed_fetch_leaves_storage
  (request : Request.t) (s : CacheStorage) (e : string) :
  reaches_network request s = true ->
  net request = Rejected e ->
  storage_of (on_fetch request s) = s /\
  (forall name url r, ~ In (CachePut name url r) (trace_of (on_fetch request s))) /\
  (isHtml request = false ->
   result_of (on_fetch request s) =
     RespondWith (Fulfilled (s_match (resolve "/index.html") s))).
Proof.
  intros Hreach Hn. split; [|split].
  - destruct (on_fetch_storage request s) as [Hs|(r & Hn' & _)]; [exact Hs|].
    rewrite Hn in Hn'. discriminate Hn'.
  - intros name url r Hin. apply on_fetch_puts in Hin as (_ & _ & Hn' & _).
    rewrite Hn in Hn'. discriminate Hn'.
  - revert Hreach. unfold reaches_network. run_fetch.
    destruct (String.eqb (Request.method request) "GET"); simpl; [|discriminate].
    destruct (isHttp request); simpl; [|discriminate].
    intros Hreach Hd. rewrite Hd in *. simpl in *.
    destruct (s_match (Request.url request) s); [discriminate Hreach|].
    rewrite Hn. reflexivity.
Qed.

(** X4. A fetch event leaves every cache other than the current one as
    it was and, in the current one, every entry whose URL differs from
    the request's by more than the fragment; no cache disappears. *)
Theorem fetch_touches_only_own_entry (request : Request.t) (s : CacheStorage) :
  (forall name url,
      name <> CACHE_NAME \/ cache_key url <> cache_key (Request.url request) ->
      entry (storage_of (on_fetch request s)) name url = entry s name url) /\
  (forall name,
      s_has name s = true -> s_has name (storage_of (on_fetch request s)) = true).
Proof.
  destruct (on_fetch_storage request s) as [Hs|(r & _ & _ & [Hs|Hs])];
    rewrite Hs; split.
  - reflexivity.
  - intros name H. exact H.
  - intros name url _. apply entry_open.
  - intros name. apply s_has_open_other.
  - intros name url Hfar. rewrite entry_put, entry_open.
    destruct (String.eqb_spec name CACHE_NAME) as [Hn|Hn]; [|reflexivity].
    destruct (String.eqb_spec url (Request.url request)) as [Hu|Hu]; [|reflexivity].
    exfalso. destruct Hfar as [H|H]; [exact (H Hn)|].
    apply H. rewrite Hu. reflexivity.
  - intros name H. rewrite s_has_put. apply s_has_open_other. exact H.
Qed.

(** X5. Install leaves the caches of other versions as they were and,
    in the current cache, every entry whose URL differs from each
    manifest URL by more than the fragment; no cache disappears. *)
Theorem install_touches_only_manifest_entries (s : CacheStorage) :
  (forall name url,
      name <> CACHE_NAME \/
      ~ In (cache_key url) (map (fun u => cache_key (resolve u)) urlsToCache) ->
      entry (storage_of (on_install s)) name url = entry s name url) /\
  (forall name,
      s_has name s = true -> s_has name (storage_of (on_install s)) = true).
Proof.
  rewrite on_install_storage. destruct precache_succeeds; split.
  - intros name url Hfar. rewrite put_all_entry_other; [apply entry_open|].
    destruct Hfar as [H|H]; [left; exact H | right].
    intros x Hx. apply H. apply in_map_iff in Hx as (u & Heq & Hu).
    injection Heq as <- _. apply in_map_iff. exists u. split; [reflexivity | exact Hu].
  - intros name H. rewrite put_all_has. apply s_has_open_other. exact H.
  - intros name url _. apply entry_open.
  - intros name. apply s_has_open_other.
Qed.

(** X6. Install requests every manifest asset once, and nothing else,
    whether the precache succeeds or not. *)
Theorem install_fetches_each_asset_once (s : CacheStorage) :
  network_calls (trace_of (on_install s)) = length urlsToCache /\
  List.filter is_network_call (trace_of (on_install s)) =
    map (fun u => NetFetch (resolve u)) urlsToCache.
Proof.
  assert (Hmap : forall l : list string,
             List.filter is_network_call (map (fun u => NetFetch (resolve u)) l) =
             map (fun u => NetFetch (resolve u)) l).
  { induction l as [|a l IH]; simpl; [reflexivity | rewrite IH; reflexivity]. }
  assert (Hf : List.filter is_network_call (trace_of (on_install s)) =
               map (fun u => NetFetch (resolve u)) urlsToCache).
  { unfold on_install, bind, ret, caches_open, console_log, cache_addAll,
      skipWaiting, trace_of. simpl.
    destruct (forallb _ _); simpl;
      rewrite !List.filter_app, Hmap; simpl; rewrite !app_nil_r; reflexivity. }
  split; [|exact Hf].
  unfold network_calls. rewrite Hf. apply length_map.
Qed.

(** X7. After activation, with distinct cache names, [caches.match]
    answers with the current cache's entry and with nothing else: what a
    stale version cached is no longer served. *)
Theorem activate_serves_only_current (s : CacheStorage) (url : string) :
  NoDup (s_names s) ->
  s_match url (storage_of (on_activate s)) = entry s CACHE_NAME url.
Proof.
  intros Hnd. rewrite on_activate_storage. unfold entry.
  destruct (s_lookup CACHE_NAME s) as [c|] eqn:E.
  - rewrite (keep_current_unique CACHE_NAME s c Hnd E). simpl.
    destruct (c !! url); reflexivity.
  - rewrite (keep_absent CACHE_NAME s E). reflexivity.
Qed.

(** X8. Install, activate and fetch keep the names of the caches
    distinct. *)
Theorem listeners_keep_names_distinct (s : CacheStorage) (request : Request.t) :
  NoDup (s_names s) ->
  NoDup (s_names (storage_of (on_install s))) /\
  NoDup (s_names (storage_of (on_activate s))) /\
  NoDup (s_names (storage_of (on_fetch request s))).
Proof.
  intros Hnd. split; [|split].
  - rewrite on_install_storage.
    destruct precache_succeeds; [rewrite put_all_names|]; apply s_open_NoDup, Hnd.
  - rewrite on_activate_storage. apply keep_NoDup, Hnd.
  - destruct (on_fetch_storage request s) as [Hs|(r & _ & _ & [Hs|Hs])];
      rewrite Hs.
    + exact Hnd.
    + apply s_open_NoDup, Hnd.
    + unfold s_put. rewrite s_update_names. apply s_open_NoDup, Hnd.
Qed.

(** X9. Activation calls [caches.delete] once for each cache name other
    than the current one, in the order [caches.keys] listed them, never
    for the current one, and it makes no network request. *)
Theorem activate_delete_calls (s : CacheStorage) :
  deleted_names (trace_of (on_activate s)) =
    List.filter (fun n => negb (String.eqb n CACHE_NAME)) (s_names s) /\
  network_calls (trace_of (on_activate s)) = 0%nat.
Proof.
  unfold on_activate. rewrite !bind_trace.
  rewrite !deleted_names_app, !network_calls_app.
  change (trace_of (ret ?x ?t)) with (@nil Effect).
  unfold caches_keys, clients_claim.
  change (result_of (s_names s, s, [CachesKeys])) with (s_names s).
  change (storage_of (s_names s, s, [CachesKeys])) with s.
  destruct (purge_trace (s_names s) s) as [Hd Hn].
  rewrite Hd, Hn. simpl. rewrite !app_nil_r. split; reflexivity.
Qed.

(** The storage after a fetch whose response passed the guard and whose
    write the store accepted. *)
Lemma on_fetch_stores (request : Request.t) (s : CacheStorage) (r : Response.t) :
  reaches_network request s = true ->
  net request = Fulfilled r ->
  cacheable request r = true ->
  put_ok (Request.url request) = true ->
  storage_of (on_fetch request s) =
    s_put CACHE_NAME (Request.url request) r (s_open CACHE_NAME s).
Proof.
  unfold reaches_network, cacheable. run_fetch.
  destruct (String.eqb (Request.method request) "GET"); simpl; [|discriminate].
  destruct (isHttp request); simpl; [|discriminate].
  destruct (isHtml request); simpl; intros Hreach Hn Hc Hput.
  - rewrite Hn; simpl. rewrite andb_true_r in Hc.
    rewrite Hc; simpl. rewrite Hput. reflexivity.
  - destruct (s_match (Request.url request) s); [discriminate Hreach|].
    rewrite Hn; simpl.
    apply andb_true_iff in Hc as [Hc Hty]. apply andb_true_iff in Hc as [Ho Hst].
    rewrite Hst, Hty, Ho; simpl. rewrite Hput. reflexivity.
Qed.

End Worker.

(** ** The worker of the source on the concrete site *)

(** C1 at a CDN script: the opaque response is handed over, nothing is
    stored and no write is attempted. *)
Lemma fetch_caches_only_conforming_witness :
  result_of (on_fetch CACHE_NAME_src site cdn roomy cdn_request v2_storage) =
    RespondWith (Fulfilled (Some (Response.mk 0 ResponseType.opaque ""))) /\
  storage_of (on_fetch CACHE_NAME_src site cdn roomy cdn_request v2_storage) =
    v2_storage.
Proof.
  destruct (fetch_caches_only_conforming CACHE_NAME_src site cdn roomy
              cdn_request v2_storage) as (_ & _ & H).
  destruct (H (Response.mk 0 ResponseType.opaque "")) as (Hr & Hs & _);
    [reflexivity | reflexivity | reflexivity |].
  split; [exact Hr | exact Hs].
Defined.

(** C4 at a form submission. *)
Lemma fetch_passes_through_unhandled_witness :
  on_fetch CACHE_NAME_src site online roomy form_post v2_storage =
  (PassThrough, v2_storage, []).
Proof.
  apply (fetch_passes_through_unhandled CACHE_NAME_src site online roomy
           form_post v2_storage).
  left. simpl. discriminate.
Defined.

(** C2 at [/styles.min.css], precached, with the network down. *)
Lemma asset_hit_served_from_cache_witness :
  result_of (on_fetch CACHE_NAME_src site offline roomy styles_request v2_storage) =
    RespondWith (Fulfilled (Some styles_css)) /\
  storage_of (on_fetch CACHE_NAME_src site offline roomy styles_request v2_storage) =
    v2_storage /\
  network_calls
    (trace_of (on_fetch CACHE_NAME_src site offline roomy styles_request v2_storage)) =
    0%nat /\
  trace_of (on_fetch CACHE_NAME_src site offline roomy styles_request v2_storage) =
    [CachesMatch "https://portfolio.example/styles.min.css"].
Proof.
  apply (asset_hit_served_from_cache CACHE_NAME_src site offline roomy
           styles_request v2_storage styles_css); reflexivity.
Defined.

(** C3 at [/about.html], offline, with only [/index.html] cached. *)
Lemma document_offline_fallback_witness :
  s_match (Request.url about_request) v2_storage = None /\
  result_of (on_fetch CACHE_NAME_src site offline roomy about_request v2_storage) =
    RespondWith (Fulfilled (Some index_html)).
Proof.
  split; [reflexivity|].
  destruct (document_offline_fallback CACHE_NAME_src site offline roomy
              about_request v2_storage "TypeError: Failed to fetch")
    as [_ H]; [reflexivity | reflexivity | reflexivity | reflexivity |].
  destruct (H index_html) as [_ Hroot]; [reflexivity|].
  apply Hroot. reflexivity.
Defined.


(** X20 at the same input. *)
Lemma fetch_failure_without_fallback_witness :
  result_of (on_fetch CACHE_NAME_src site offline roomy about_request []) =
    RespondWith (Fulfilled None) /\
  storage_of (on_fetch CACHE_NAME_src site offline roomy about_request []) = [].
Proof.
  apply (fetch_failure_without_fallback CACHE_NAME_src site offline roomy
           about_request [] "TypeError: Failed to fetch"); reflexivity.
Defined.

(** C5: version [portfolio-v3] installed and activated over the storage
    of the source's [portfolio-v2]. *)
Lemma activate_deletes_exactly_stale_witness :
  let installed :=
    storage_of (on_install "portfolio-v3" urlsToCache_src site online roomy v2_storage) in
  let activated := storage_of (on_activate "portfolio-v3" installed) in
  s_has CACHE_NAME_src v2_storage = true /\
  s_has CACHE_NAME_src activated = false /\
  s_has "portfolio-v3" activated = true /\
  entry activated "portfolio-v3" "https://portfolio.example/styles.min.css" =
    Some (html "https://portfolio.example/styles.min.css").
Proof.
  destruct (activate_deletes_exactly_stale "portfolio-v3" urlsToCache_src site
              online roomy v2_storage CACHE_NAME_src)
    as (_ & _ & _ & Hold & Hnew & _ & Hall); [discriminate|].
  cbv zeta. split; [reflexivity|]. split; [exact Hold|]. split; [exact Hnew|].
  apply (Hall eq_refl "/styles.min.css"); [|reflexivity].
  simpl. auto.
Defined.

(** C6 on a storage holding a stale and the current cache. *)
Lemma activate_idempotent_witness :
  let once := on_activate CACHE_NAME_src two_versions in
  let twice := on_activate CACHE_NAME_src (storage_of once) in
  result_of once = Fulfilled tt /\
  result_of twice = Fulfilled tt /\
  storage_of twice =
    [(CACHE_NAME_src, <["https://portfolio.example/index.html" := html "v2"]> ∅)] /\
  storage_of twice = storage_of once.
Proof.
  apply (activate_idempotent CACHE_NAME_src two_versions
           (<["https://portfolio.example/index.html" := html "v2"]> ∅)).
  - unfold two_versions, s_names. simpl.
    apply NoDup_cons. split.
    + intros H. apply list_elem_of_In in H. destruct H as [H|[]]. discriminate H.
    + apply NoDup_singleton.
  - reflexivity.
Defined.

(** C7: install with the network down. *)
Lemma install_swallows_precache_failure_witness :
  result_of (on_install CACHE_NAME_src urlsToCache_src site offline roomy []) =
    Fulfilled tt /\
  In (ConsoleLog "Cache install failed: TypeError")
     (trace_of (on_install CACHE_NAME_src urlsToCache_src site offline roomy [])) /\
  storage_of (on_install CACHE_NAME_src urlsToCache_src site offline roomy []) =
    [(CACHE_NAME_src, ∅)].
Proof.
  destruct (install_swallows_precache_failure CACHE_NAME_src urlsToCache_src
              site offline roomy [] "/index.html")
    as (_ & Hres & Hlog & _ & Hst & _); [simpl; auto | reflexivity |].
  split; [exact Hres|]. split; [exact Hlog|]. exact Hst.
Defined.

(** C10 at the payloads of the claim: [null], [undefined], an object
    without [type], and the control message. *)
Lemma message_listener_total_witness :
  on_message JS.Null [] = (Normal, [], []) /\
  on_message JS.Undefined [] = (Normal, [], []) /\
  on_message (JS.Obj [("kind", JS.Str "SKIP_WAITING")]) [] = (Normal, [], []) /\
  trace_of (on_message (JS.Obj [("type", JS.Str "SKIP_WAITING")]) []) = [SkipWaiting].
Proof.
  split; [reflexivity|]. split; [reflexivity|]. split; [reflexivity|].
  destruct (message_listener_total (JS.Obj [("type", JS.Str "SKIP_WAITING")]) [])
    as (_ & _ & H & _).
  apply H. reflexivity.
Defined.

(** ** One event after another *)

Section Sequences.

Variable CACHE_NAME : string.
Variable location_origin : string.

(** The environments of two events. *)
Variables net1 net2 : Request.t -> Settled Response.t.
Variables put_ok1 put_ok2 : string -> bool.

(** X10. Whether the store accepts the write or refuses it, the page gets
    the same result and the listener issues the same calls: a failed
    cache write never reaches the page. *)
Theorem fetch_result_ignores_write_outcome (request : Request.t) (s : CacheStorage) :
  result_of (on_fetch CACHE_NAME location_origin net1 put_ok1 request s) =
    result_of (on_fetch CACHE_NAME location_origin net1 put_ok2 request s) /\
  trace_of (on_fetch CACHE_NAME location_origin net1 put_ok1 request s) =
    trace_of (on_fetch CACHE_NAME location_origin net1 put_ok2 request s).
Proof.
  unfold on_fetch, store_copy, bind, ret, fetch, caches_match, caches_open,
    cache_put, result_of, trace_of; simpl.
  destruct (String.eqb (Request.method request) "GET"); simpl; [|split; reflexivity].
  destruct (isHttp request); simpl; [|split; reflexivity].
  destruct (isHtml request); simpl.
  - destruct (net1 request) as [r|e]; simpl.
    + destruct (same_origin location_origin request && (Response.status r =? 200));
        simpl; [|split; reflexivity].
      destruct (put_ok1 (Request.url request)), (put_ok2 (Request.url request));
        split; reflexivity.
    + destruct (s_match (Request.url request) s); split; reflexivity.
  - destruct (s_match (Request.url request) s); simpl; [split; reflexivity|].
    destruct (net1 request) as [r|e]; simpl; [|split; reflexivity].
    destruct (negb (Response.status r =? 200)
              || negb (ResponseType.eqb (Response.type r) ResponseType.basic));
      simpl; [split; reflexivity|].
    destruct (same_origin location_origin request); simpl; [|split; reflexivity].
    destruct (put_ok1 (Request.url request)), (put_ok2 (Request.url request));
      split; reflexivity.
Qed.

(** X11. Cache-first repair: an asset missing from every cache, fetched
    with a response that passes the guard and stored, is from then on
    found by [caches.match]; the next event for the same request is
    answered with that response without any network call, whatever the
    network would say, and changes nothing. *)
Theorem asset_miss_then_hit
  (request : Request.t) (s : CacheStorage) (r : Response.t) :
  Request.method request = "GET" ->
  isHttp request = true ->
  isHtml request = false ->
  s_match (Request.url request) s = None ->
  net1 request = Fulfilled r ->
  cacheable location_origin request r = true ->
  put_ok1 (Request.url request) = true ->
  let s1 := storage_of (on_fetch CACHE_NAME location_origin net1 put_ok1 request s) in
  let second := on_fetch CACHE_NAME location_origin net2 put_ok2 request s1 in
  s_match (Request.url request) s1 = Some r /\
  result_of second = RespondWith (Fulfilled (Some r)) /\
  network_calls (trace_of second) = 0%nat /\
  storage_of second = s1.
Proof.
  intros Hm Hh Hd Hmiss Hn Hc Hput. cbv zeta.
  assert (Hreach : reaches_network request s = true)
    by (unfold reaches_network; rewrite Hm, Hh, Hd, Hmiss; reflexivity).
  rewrite (on_fetch_stores CACHE_NAME location_origin net1 put_ok1
             request s r Hreach Hn Hc Hput).
  assert (Hfound : s_match (Request.url request)
                     (s_put CACHE_NAME (Request.url request) r
                        (s_open CACHE_NAME s)) = Some r).
  { apply s_match_put; [|apply s_has_open].
    intros n c Hin _. apply In_s_open in Hin as [Hin|[_ ->]].
    - exact (s_match_None_lacks _ s n c Hmiss Hin).
    - apply lookup_empty. }
  split; [exact Hfound|].
  unfold on_fetch, bind, ret, caches_match, result_of, storage_of, trace_of.
  rewrite Hm, Hh, Hd; simpl. rewrite Hfound; simpl. auto.
Qed.

(** X12. Network-first refresh: a document fetched with a same-origin
    200 response and stored is the entry of the current cache under its
    URL; a later event for it with the network down is answered with a
    response, and with that very response when no cache of another name
    holds the URL. *)
Theorem document_online_then_offline
  (request : Request.t) (s : CacheStorage) (r : Response.t) (e : string) :
  Request.method request = "GET" ->
  isHttp request = true ->
  isHtml request = true ->
  net1 request = Fulfilled r ->
  cacheable location_origin request r = true ->
  put_ok1 (Request.url request) = true ->
  net2 request = Rejected e ->
  let s1 := storage_of (on_fetch CACHE_NAME location_origin net1 put_ok1 request s) in
  let second := on_fetch CACHE_NAME location_origin net2 put_ok2 request s1 in
  entry s1 CACHE_NAME (Request.url request) = Some r /\
  (exists r', result_of second = RespondWith (Fulfilled (Some r'))) /\
  ((forall n c, In (n, c) s -> n <> CACHE_NAME -> c !! Request.url request = None) ->
   result_of second = RespondWith (Fulfilled (Some r))) /\
  storage_of second = s1.
Proof.
  intros Hm Hh Hd Hn Hc Hput Hoff. cbv zeta.
  assert (Hreach : reaches_network request s = true)
    by (unfold reaches_network; rewrite Hm, Hh, Hd; reflexivity).
  rewrite (on_fetch_stores CACHE_NAME location_origin net1 put_ok1
             request s r Hreach Hn Hc Hput).
  set (s1 := s_put CACHE_NAME (Request.url request) r (s_open CACHE_NAME s)).
  assert (Hentry : entry s1 CACHE_NAME (Request.url request) = Some r).
  { unfold s1. rewrite entry_put, !String.eqb_refl, s_has_open. reflexivity. }
  assert (Hsecond : forall r', s_match (Request.url request) s1 = Some r' ->
            result_of (on_fetch CACHE_NAME location_origin net2 put_ok2 request s1) =
              RespondWith (Fulfilled (Some r')) /\
            storage_of (on_fetch CACHE_NAME location_origin net2 put_ok2 request s1) =
              s1).
  { intros r' Hfound.
    unfold on_fetch, bind, ret, fetch, caches_match, result_of, storage_of.
    rewrite Hm, Hh, Hd; simpl. rewrite Hoff; simpl. rewrite Hfound. auto. }
  destruct (entry_found_by_match s1 _ _ _ Hentry) as [r' Hfound].
  destruct (Hsecond r' Hfound) as [Hres Hst].
  split; [exact Hentry|]. split; [exists r'; exact Hres|]. split; [|exact Hst].
  intros Hothers.
  assert (Hexact : s_match (Request.url request) s1 = Some r).
  { apply s_match_put; [|apply s_has_open].
    intros n c Hin Hne. apply In_s_open in Hin as [Hin|[Heq _]]; [|contradiction].
    exact (Hothers n c Hin Hne). }
  apply (Hsecond r Hexact).
Qed.

End Sequences.

(** ** The page module *)

Lemma record_paint_fold {Num : Type} (entries : list (Perf.Entry Num))
  (metrics : Perf.Metrics Num) :
  let reported := fold_left Perf.record_paint entries metrics in
  Perf.domContentLoaded reported = Perf.domContentLoaded metrics /\
  Perf.loadComplete reported = Perf.loadComplete metrics /\
  Perf.firstPaint reported =
    match Perf.last_start "first-paint" entries with
    | Some t => Some t
    | None => Perf.firstPaint metrics
    end /\
  Perf.firstContentfulPaint reported =
    match Perf.last_start "first-contentful-paint" entries with
    | Some t => Some t
    | None => Perf.firstContentfulPaint metrics
    end.
Proof.
  cbv zeta. revert metrics.
  induction entries as [|e entries IH]; intros metrics; [simpl; auto|].
  cbn [fold_left].
  destruct (IH (Perf.record_paint metrics e)) as (Hd & Hl & Hp & Hc).
  rewrite Hd, Hl, Hp, Hc. clear IH Hd Hl Hp Hc.
  unfold Perf.last_start, Perf.record_paint. cbn [List.filter].
  destruct (String.eqb_spec (Perf.name e) "first-paint") as [E|E].
  - rewrite E. simpl. rewrite last_cons.
    repeat split; try reflexivity.
    destruct (last _); reflexivity.
  - destruct (String.eqb_spec (Perf.name e) "first-contentful-paint") as [E'|E'].
    + simpl. rewrite last_cons.
      repeat split; try reflexivity.
      destruct (last _); reflexivity.
    + repeat split; reflexivity.
Qed.

(** X13. With [performance.timing] present, the metrics are logged once
    and, when [gtag] exists, the same object is sent to it once.  The two
    durations are differences to [navigationStart]; each paint time is
    the start time of the last paint entry of that name and stays [null]
    when there is none or when [getEntriesByType] is missing. *)
Theorem collect_metrics_report {Num : Type}
  (window : Perf.Window Num) (perf : Perf.Performance Num) (timing : Perf.Timing) :
  Perf.performance window = Some perf ->
  Perf.timing perf = Some timing ->
  let entries :=
    match Perf.getEntriesByType perf with Some get => get "paint" | None => [] end in
  exists metrics,
    Perf.collectPerformanceMetrics window =
      (Perf.Log "Performance Metrics:" metrics ::
       (if Perf.gtag window
        then [Perf.Gtag "event" "page_performance" metrics] else []))%list /\
    Perf.domContentLoaded metrics =
      Perf.domContentLoadedEventEnd timing - Perf.navigationStart timing /\
    Perf.loadComplete metrics =
      Perf.loadEventEnd timing - Perf.navigationStart timing /\
    Perf.firstPaint metrics = Perf.last_start "first-paint" entries /\
    Perf.firstContentfulPaint metrics =
      Perf.last_start "first-contentful-paint" entries.
Proof.
  intros Hp Ht. cbv zeta. unfold Perf.collectPerformanceMetrics.
  rewrite Hp, Ht. eexists. split; [reflexivity|].
  destruct (Perf.getEntriesByType perf) as [get|].
  - destruct (record_paint_fold (get "paint")
      {| Perf.domContentLoaded :=
           Perf.domContentLoadedEventEnd timing - Perf.navigationStart timing;
         Perf.loadComplete := Perf.loadEventEnd timing - Perf.navigationStart timing;
         Perf.firstPaint := None;
         Perf.firstContentfulPaint := None |}) as (Hd & Hl & Hf & Hc).
    rewrite Hd, Hl, Hf, Hc. simpl.
    repeat split; try reflexivity.
    + destruct (Perf.last_start "first-paint" (get "paint")); reflexivity.
    + destruct (Perf.last_start "first-contentful-paint" (get "paint")); reflexivity.
  - simpl. repeat split; reflexivity.
Qed.

(** X14. The largest-contentful-paint callback throws on an empty batch
    of entries and on no other; on a non-empty batch it logs the start
    time of the last entry, once. *)
Theorem lcp_callback_last_entry {Num : Type} (entries : list (Perf.Entry Num)) :
  (fst (Perf.lcp_callback entries) = Normal <-> entries <> []) /\
  (entries = [] -> Perf.lcp_callback entries = (Throws "TypeError", [])) /\
  (forall front e,
      entries = (front ++ [e])%list ->
      Perf.lcp_callback entries = (Normal, [Perf.LogNum "LCP:" (Perf.startTime e)])).
Proof.
  assert (Hlast : forall front (e : Perf.Entry Num),
             Perf.lcp_callback (front ++ [e])%list =
             (Normal, [Perf.LogNum "LCP:" (Perf.startTime e)])).
  { intros front e. unfold Perf.lcp_callback.
    rewrite length_app. simpl length.
    replace (Z.of_nat (length front + 1) - 1) with (Z.of_nat (length front)) by lia.
    destruct (Z.ltb_spec (Z.of_nat (length front)) 0) as [H|_]; [lia|].
    rewrite Nat2Z.id, (list_lookup_middle front [] e); reflexivity. }
  split; [|split].
  - split.
    + intros Hn ->. discriminate Hn.
    + intros Hne. induction entries as [|e front _] using rev_ind;
        [contradiction|]. rewrite Hlast. reflexivity.
  - intros ->. reflexivity.
  - intros front e ->. apply Hlast.
Qed.

(** X15. The layout-shift score accumulates across callbacks: two
    batches handled one after the other leave the total that one
    callback leaves on the two batches joined, and entries with recent
    input contribute nothing. *)
Theorem cls_accumulates {Num : Type} (add : Num -> Num -> Num)
  (first second : list (Perf.Entry Num)) (clsValue : Num) :
  fst (Perf.cls_callback add second (fst (Perf.cls_callback add first clsValue))) =
    fst (Perf.cls_callback add (first ++ second)%list clsValue) /\
  fst (Perf.cls_callback add first clsValue) =
    fold_left add (map Perf.value (List.filter Perf.counts first)) clsValue.
Proof.
  unfold Perf.cls_callback. cbn [fst]. split.
  - rewrite fold_left_app. reflexivity.
  - revert clsValue. induction first as [|e first IH]; intros clsValue;
      [reflexivity|].
    cbn [fold_left List.filter]. unfold Perf.counts at 1.
    destruct (negb (Perf.hadRecentInput e)); cbn [map fold_left]; apply IH.
Qed.

Lemma classList_add_present token l :
  existsb (String.eqb token) (Perf.classList_add token l) = true.
Proof.
  unfold Perf.classList_add.
  destruct (existsb (String.eqb token) l) eqn:E; [exact E|].
  rewrite existsb_app. simpl. rewrite String.eqb_refl, orb_true_r. reflexivity.
Qed.

Lemma load_twice (img : Perf.Img) : Perf.load (Perf.load img) = Perf.load img.
Proof.
  unfold Perf.load. cbn [Perf.data_src Perf.classList]. f_equal.
  unfold Perf.classList_add at 1. rewrite classList_add_present. reflexivity.
Qed.

Lemma load_selected (front rest front' : list Perf.Img) :
  length front' = length front ->
  fold_left (fun doc img => alter Perf.load img doc)
    (Perf.select_from (length front) rest) (front' ++ rest)%list =
  (front' ++ map Perf.loaded_if_lazy rest)%list.
Proof.
  revert front front'.
  induction rest as [|img rest IH]; intros front front' Hlen; [reflexivity|].
  cbn [Perf.select_from map].
  assert (Hhead : Perf.loaded_if_lazy img =
                  if Perf.has_data_src img then Perf.load img else img)
    by reflexivity.
  rewrite Hhead. clear Hhead.
  destruct (Perf.has_data_src img); cbn [fold_left].
  - rewrite <- Hlen.
    replace (length front') with (length front' + 0)%nat at 2 by lia.
    rewrite alter_app_r. cbn [alter list_alter].
    specialize (IH (front' ++ [Perf.load img])%list
                   (front' ++ [Perf.load img])%list eq_refl).
    rewrite length_app in IH. simpl length in IH.
    replace (length front' + 1)%nat with (S (length front')) in IH by lia.
    rewrite <- !app_assoc in IH. exact IH.
  - specialize (IH (front ++ [img])%list (front' ++ [img])%list).
    rewrite !length_app in IH. simpl length in IH.
    replace (length front + 1)%nat with (S (length front)) in IH by lia.
    rewrite <- !app_assoc in IH. apply IH. lia.
Qed.

(** X16. Without [IntersectionObserver], one call loads every image that
    has a [data-src]: its [src] becomes the [data-src] and its class list
    holds [loaded]; the other images are untouched and nothing is
    observed.  A second call changes nothing more. *)
Theorem fallback_loads_every_lazy_image (document : list Perf.Img) :
  Perf.optimizeImageLoading false document = (map Perf.loaded_if_lazy document, []) /\
  (forall i img u,
      document !! i = Some img -> Perf.data_src img = Some u ->
      exists img', fst (Perf.optimizeImageLoading false document) !! i = Some img' /\
                   Perf.src img' = u /\ In "loaded" (Perf.classList img')) /\
  Perf.optimizeImageLoading false (fst (Perf.optimizeImageLoading false document)) =
    Perf.optimizeImageLoading false document.
Proof.
  assert (Hrun : forall d, Perf.optimizeImageLoading false d =
                           (map Perf.loaded_if_lazy d, [])).
  { intros d. unfold Perf.optimizeImageLoading, Perf.querySelectorAll_img_data_src.
    f_equal. apply (load_selected [] d [] eq_refl). }
  split; [apply Hrun|]. split.
  - intros i img u Hi Hu. rewrite Hrun. cbn [fst].
    exists (Perf.loaded_if_lazy img). split.
    + change (map Perf.loaded_if_lazy document) with (Perf.loaded_if_lazy <$> document).
      rewrite list_lookup_fmap, Hi. reflexivity.
    + unfold Perf.loaded_if_lazy, Perf.has_data_src, Perf.load. rewrite Hu.
      cbn [Perf.src Perf.classList]. split; [reflexivity|].
      pose proof (classList_add_present "loaded" (Perf.classList img)) as H.
      apply existsb_exists in H as (t & Hin & Heq).
      apply String.eqb_eq in Heq. subst t. exact Hin.
  - rewrite !Hrun. cbn [fst]. f_equal. rewrite map_map. apply map_ext.
    intros img. unfold Perf.loaded_if_lazy.
    destruct (Perf.has_data_src img) eqn:E; [|rewrite E; reflexivity].
    assert (E' : Perf.has_data_src (Perf.load img) = true) by exact E.
    rewrite E'. apply load_twice.
Qed.

(** X17. The observer's callback loads the images that an intersecting
    entry of the batch targets and stops observing them; every other
    image, and every other target, is left as it was.  An image targeted
    more than once is loaded as if targeted once. *)
Theorem intersection_loads_visible_images
  (entries : list Perf.IntersectionEntry) (document : list Perf.Img)
  (targets : list nat) :
  (forall i : nat,
      fst (Perf.on_intersection entries (document, targets)) !! i =
      if Perf.hit entries i then Perf.load <$> document !! i else document !! i) /\
  (forall i : nat,
      In i (snd (Perf.on_intersection entries (document, targets))) <->
      In i targets /\ Perf.hit entries i = false).
Proof.
  revert document targets.
  induction entries as [|e entries IH]; intros document targets.
  - simpl. split; [reflexivity|]. intros i. tauto.
  - unfold Perf.on_intersection. cbn [fold_left].
    fold (Perf.on_intersection entries).
    destruct (Perf.isIntersecting e) eqn:Ei; cbn [fst snd].
    + destruct (IH (alter Perf.load (Perf.target e) document)
                   (Perf.unobserve (Perf.target e) targets)) as [Hd Ht].
      split; intros i.
      * rewrite Hd. unfold Perf.hit. cbn [existsb]. rewrite Ei. simpl.
        destruct (Nat.eqb_spec (Perf.target e) i) as [->|Hne]; simpl.
        -- rewrite list_lookup_alter_eq.
           destruct (existsb _ entries); [|reflexivity].
           destruct (document !! i); simpl; [rewrite load_twice|]; reflexivity.
        -- rewrite list_lookup_alter_ne by exact Hne. reflexivity.
      * rewrite Ht. unfold Perf.unobserve. rewrite filter_In.
        unfold Perf.hit. cbn [existsb]. rewrite Ei. simpl.
        destruct (Nat.eqb_spec (Perf.target e) i) as [->|Hne]; simpl.
        -- rewrite Nat.eqb_refl. simpl. intuition discriminate.
        -- destruct (Nat.eqb_spec i (Perf.target e)) as [Heq|_];
             [symmetry in Heq; contradiction|]. simpl. tauto.
    + destruct (IH document targets) as [Hd Ht].
      split; intros i.
      * rewrite Hd. unfold Perf.hit. cbn [existsb]. rewrite Ei. reflexivity.
      * rewrite Ht. unfold Perf.hit. cbn [existsb]. rewrite Ei. reflexivity.
Qed.

Lemma observe_all_In (images targets : list nat) (i : nat) :
  In i (fold_left (fun ts img => Perf.observe img ts) images targets) <->
  In i targets \/ In i images.
Proof.
  revert targets. induction images as [|a images IH]; intros targets; simpl.
  - tauto.
  - rewrite IH. unfold Perf.observe.
    destruct (existsb (Nat.eqb a) targets) eqn:E.
    + apply existsb_exists in E as (t & Hin & Heq).
      apply Nat.eqb_eq in Heq. subst t. intuition (subst; auto).
    + rewrite in_app_iff. simpl. tauto.
Qed.

Lemma select_from_In (k : nat) (document : list Perf.Img) (i : nat) :
  In i (Perf.select_from k document) <->
  exists j img, i = (k + j)%nat /\ document !! j = Some img /\
                Perf.has_data_src img = true.
Proof.
  revert k. induction document as [|img rest IH]; intros k.
  - simpl. split; [contradiction|]. intros (j & img & _ & H & _).
    rewrite lookup_nil in H. discriminate H.
  - assert (Hrest : In i (Perf.select_from (S k) rest) <->
                    exists j img', i = (k + S j)%nat /\ rest !! j = Some img' /\
                                   Perf.has_data_src img' = true).
    { rewrite IH. split; intros (j & img' & Hi & H); exists j, img';
        (split; [lia | exact H]). }
    cbn [Perf.select_from].
    destruct (Perf.has_data_src img) eqn:E; cbn [In]; rewrite Hrest; split.
    + intros [<-|(j & img' & Hi & Hl & Hh)].
      * exists 0%nat, img. split; [lia|]. split; [reflexivity | exact E].
      * exists (S j), img'. split; [exact Hi|]. split; [exact Hl | exact Hh].
    + intros ([|j] & img' & Hi & Hl & Hh).
      * left. lia.
      * right. exists j, img'. split; [exact Hi|]. split; [exact Hl | exact Hh].
    + intros (j & img' & Hi & Hl & Hh).
      exists (S j), img'. split; [exact Hi|]. split; [exact Hl | exact Hh].
    + intros ([|j] & img' & Hi & Hl & Hh).
      * simpl in Hl. injection Hl as <-. congruence.
      * exists j, img'. split; [exact Hi|]. split; [exact Hl | exact Hh].
Qed.

(** X18. With [IntersectionObserver], the call changes no image and the
    observer it creates observes exactly the images that have a
    [data-src]. *)
Theorem observer_watches_lazy_images (document : list Perf.Img) :
  fst (Perf.optimizeImageLoading true document) = document /\
  (forall i : nat,
      In i (snd (Perf.optimizeImageLoading true document)) <->
      exists img, document !! i = Some img /\ Perf.has_data_src img = true).
Proof.
  unfold Perf.optimizeImageLoading, Perf.querySelectorAll_img_data_src.
  cbn [fst snd]. split; [reflexivity|]. intros i.
  rewrite observe_all_In, select_from_In. split.
  - intros [[]|(j & img & -> & H)]. exists img. exact H.
  - intros (img & H). right. exists i, img. split; [reflexivity | exact H].
Qed.

(** X19. The page posts a message to the worker exactly when the
    registration has a waiting worker, and that message is one the
    worker's message listener acts on: it calls [skipWaiting] once and
    completes normally, leaving the caches alone. *)
Theorem posted_message_is_recognised (registration : Perf.Registration) :
  (Perf.waiting registration = true <->
   exists data, In (Perf.PostMessage data) (Perf.on_registered registration)) /\
  (forall data s,
      In (Perf.PostMessage data) (Perf.on_registered registration) ->
      on_message data s = (Normal, s, [SkipWaiting])).
Proof.
  unfold Perf.on_registered.
  destruct (Perf.waiting registration); simpl; split.
  - split; [intros _ | reflexivity].
    exists (JS.Obj [("type", JS.Str "SKIP_WAITING")]). auto 10.
  - intros data s [H|[H|[H|[H|[H|[]]]]]]; try discriminate H.
    injection H as <-. reflexivity.
  - split; [discriminate|].
    intros (data & [H|[H|[H|[H|[]]]]]); discriminate H.
  - intros data s [H|[H|[H|[H|[]]]]]; discriminate H.
Qed.

(** ** The further properties on the concrete site *)

Lemma two_versions_distinct : NoDup (s_names two_versions).
Proof.
  unfold two_versions, s_names. simpl.
  apply NoDup_cons. split; [|apply NoDup_singleton].
  intros H. apply list_elem_of_In in H. destruct H as [H|[]]. discriminate H.
Qed.

(** X2 at [/about.html] with the network up: the live page, not the
    cached root document. *)
Lemma network_answer_is_delivered_witness :
  result_of (on_fetch CACHE_NAME_src site online roomy about_request v2_storage) =
  RespondWith (Fulfilled (Some (html "https://portfolio.example/about.html"))).
Proof.
  apply (network_answer_is_delivered CACHE_NAME_src site online roomy
           about_request v2_storage); reflexivity.
Defined.

(** X3 at a script that is not cached, offline: the page gets the root
    document in its place. *)
Lemma failed_fetch_leaves_storage_witness :
  storage_of (on_fetch CACHE_NAME_src site offline roomy script_request v2_storage) =
    v2_storage /\
  result_of (on_fetch CACHE_NAME_src site offline roomy script_request v2_storage) =
    RespondWith (Fulfilled (Some index_html)).
Proof.
  destruct (failed_fetch_leaves_storage CACHE_NAME_src site offline roomy
              script_request v2_storage "TypeError: Failed to fetch")
    as (Hs & _ & Hr); [reflexivity | reflexivity |].
  split; [exact Hs | exact (Hr eq_refl)].
Defined.

(** X4 at the same script with the network up: the stylesheet's entry is
    not touched. *)
Lemma fetch_touches_only_own_entry_witness :
  entry (storage_of (on_fetch CACHE_NAME_src site online roomy script_request
                       v2_storage))
        CACHE_NAME_src "https://portfolio.example/styles.min.css" =
  Some styles_css.
Proof.
  destruct (fetch_touches_only_own_entry CACHE_NAME_src site online roomy
              script_request v2_storage) as [H _].
  rewrite H; [reflexivity|]. right. vm_compute. discriminate.
Defined.

(** X5: installing [portfolio-v3] leaves the entries of [portfolio-v2]. *)
Lemma install_touches_only_manifest_entries_witness :
  entry (storage_of (on_install "portfolio-v3" urlsToCache_src site online roomy
                       v2_storage))
        CACHE_NAME_src "https://portfolio.example/styles.min.css" =
  Some styles_css.
Proof.
  destruct (install_touches_only_manifest_entries "portfolio-v3" urlsToCache_src
              site online roomy v2_storage) as [H _].
  rewrite H; [reflexivity|]. left. discriminate.
Defined.

(** X7: before activation the stale cache, created first, answers for
    [/index.html]; after it the current one does. *)
Lemma activate_serves_only_current_witness :
  s_match "https://portfolio.example/index.html" two_versions = Some index_html /\
  s_match "https://portfolio.example/index.html"
    (storage_of (on_activate CACHE_NAME_src two_versions)) = Some (html "v2").
Proof.
  split; [reflexivity|].
  rewrite (activate_serves_only_current CACHE_NAME_src two_versions
             "https://portfolio.example/index.html" two_versions_distinct).
  reflexivity.
Defined.

(** X8 on the storage with two versions. *)
Lemma listeners_keep_names_distinct_witness :
  NoDup (s_names (storage_of
    (on_install "portfolio-v3" urlsToCache_src site online roomy two_versions))).
Proof.
  apply (listeners_keep_names_distinct "portfolio-v3" urlsToCache_src site online
           roomy two_versions about_request two_versions_distinct).
Defined.

(** X11: the script fetched once with the network up, then asked for
    again with the network down. *)
Lemma asset_miss_then_hit_witness :
  let s1 := storage_of (on_fetch CACHE_NAME_src site online roomy script_request
                          v2_storage) in
  let second := on_fetch CACHE_NAME_src site offline roomy script_request s1 in
  result_of second =
    RespondWith (Fulfilled (Some (html "https://portfolio.example/navigation.js"))) /\
  network_calls (trace_of second) = 0%nat.
Proof.
  destruct (asset_miss_then_hit CACHE_NAME_src site online offline roomy roomy
              script_request v2_storage
              (html "https://portfolio.example/navigation.js"))
    as (_ & Hr & Hn & _); [reflexivity .. |].
  split; [exact Hr | exact Hn].
Defined.

(** X12: [/about.html] visited with the network up, then again offline. *)
Lemma document_online_then_offline_witness :
  let s1 := storage_of (on_fetch CACHE_NAME_src site online roomy about_request
                          v2_storage) in
  let second := on_fetch CACHE_NAME_src site offline roomy about_request s1 in
  result_of second =
    RespondWith (Fulfilled (Some (html "https://portfolio.example/about.html"))).
Proof.
  destruct (document_online_then_offline CACHE_NAME_src site online offline roomy
              roomy about_request v2_storage
              (html "https://portfolio.example/about.html")
              "TypeError: Failed to fetch")
    as (_ & _ & Hr & _); [reflexivity .. |].
  apply Hr. intros n c [H|[]] Hne. injection H as <- _. contradiction Hne. reflexivity.
Defined.

(** X13 on a page inspected from its [load] listener: the load duration
    comes out negative and the later [first-paint] entry wins. *)
Lemma collect_metrics_report_witness :
  exists metrics,
    Perf.collectPerformanceMetrics load_window =
      [ Perf.Log "Performance Metrics:" metrics;
        Perf.Gtag "event" "page_performance" metrics ] /\
    Perf.domContentLoaded metrics = 420 /\
    Perf.loadComplete metrics = -1700000000000 /\
    Perf.firstPaint metrics = Some 125 /\
    Perf.firstContentfulPaint metrics = Some 131.
Proof.
  destruct (collect_metrics_report load_window
              {| Perf.timing := Some load_timing;
                 Perf.getEntriesByType := Some paints |}
              load_timing eq_refl eq_refl)
    as (metrics & Hrun & Hd & Hl & Hp & Hc).
  exists metrics. split; [exact Hrun|]. split; [exact Hd|]. split; [exact Hl|].
  split; [exact Hp | exact Hc].
Defined.

(** X14 on the paint entries above. *)
Lemma lcp_callback_last_entry_witness :
  Perf.lcp_callback (paints "largest-contentful-paint") =
  (Normal, [Perf.LogNum "LCP:" 125]).
Proof.
  destruct (lcp_callback_last_entry (paints "largest-contentful-paint"))
    as (_ & _ & H).
  apply (H [paint "first-paint" 118; paint "first-contentful-paint" 131]
           (paint "first-paint" 125)).
  reflexivity.
Defined.

(** X16 on a document with two lazy images, one of them already marked. *)
Lemma fallback_loads_every_lazy_image_witness :
  exists img,
    fst (Perf.optimizeImageLoading false gallery) !! 2%nat = Some img /\
    Perf.src img = "b.jpg" /\ In "loaded" (Perf.classList img).
Proof.
  destruct (fallback_loads_every_lazy_image gallery) as (_ & H & _).
  apply (H 2%nat
           {| Perf.src := "placeholder.gif"; Perf.data_src := Some "b.jpg";
              Perf.classList := ["thumb"; "loaded"] |} "b.jpg");
    reflexivity.
Defined.

(** X19 for a registration with a waiting worker. *)
Lemma posted_message_is_recognised_witness :
  In (Perf.PostMessage (JS.Obj [("type", JS.Str "SKIP_WAITING")]))
     (Perf.on_registered {| Perf.scope := "https://portfolio.example/";
                            Perf.waiting := true |}) /\
  on_message (JS.Obj [("type", JS.Str "SKIP_WAITING")]) v2_storage =
    (Normal, v2_storage, [SkipWaiting]).
Proof.
  assert (Hin : In (Perf.PostMessage (JS.Obj [("type", JS.Str "SKIP_WAITING")]))
                   (Perf.on_registered {| Perf.scope := "https://portfolio.example/";
                                          Perf.waiting := true |}))
    by (simpl; auto 10).
  split; [exact Hin|].
  destruct (posted_message_is_recognised
              {| Perf.scope := "https://portfolio.example/"; Perf.waiting := true |})
    as [_ H].
  exact (H _ v2_storage Hin).
Defined.
